(** * Vaulto Swap: token-selection resolver and Solana token-data route

    A shallow embedding of

    - [src/app/components/swap/LiFiWidgetWrapper.tsx]: the [tokenSelect]
      event handler that drives the embedded LiFi widget through
      [formRef.current.setFieldValue];
    - [src/app/api/solana/token-data/route.ts]: [formatMarketCap] and the
      [POST] handler that assembles one market record per address.

    JavaScript strings are modelled as [string] (the UTF-8 bytes of the
    text), numbers that are chain identifiers as [Z] (both identifiers are
    below 2^53, so they are exact doubles), and every other number as an
    IEEE binary64 value ([spec_float] of the Standard Library). *)

From Stdlib Require Import ZArith String Ascii List Bool Lia.
From Stdlib Require Import Floats.SpecFloat.
From stdpp Require Import base option list gmap strings.

Import ListNotations.
Local Open Scope string_scope.
Local Open Scope Z_scope.

(** ** Outcomes and a small state-and-exception monad

    The handlers log to the console, call the widget or the providers, and
    may see a call throw.  [Run S A] threads a state [S] and stops at the
    first [Thrown]. *)

Inductive Outcome (A : Type) : Type :=
| Returned (a : A)
| Thrown (err : string).
Arguments Returned {A} a.
Arguments Thrown {A} err.

Definition Run (S A : Type) : Type := S -> Outcome A * S.

Definition ret {S A} (a : A) : Run S A := fun s => (Returned a, s).

Definition bind {S A B} (m : Run S A) (k : A -> Run S B) : Run S B :=
  fun s =>
    match m s with
    | (Returned a, s') => k a s'
    | (Thrown e, s') => (Thrown e, s')
    end.

(** [try { body } catch (e) { handler e }] *)
Definition try_catch {S A} (body : Run S A) (handler : string -> Run S A) : Run S A :=
  fun s =>
    match body s with
    | (Returned a, s') => (Returned a, s')
    | (Thrown e, s') => handler e s'
    end.

Definition modify {S} (f : S -> S) : Run S unit := fun s => (Returned tt, f s).

Declare Scope run_scope.
Delimit Scope run_scope with run.
Notation "x <- m ;; k" := (bind m (fun x => k))
  (at level 100, m at next level, right associativity) : run_scope.
Notation "m ;;; k" := (bind m (fun _ => k))
  (at level 100, right associativity) : run_scope.
Local Open Scope run_scope.

(** ** JavaScript string primitives *)

Module Js.

Definition isUpperAscii (c : ascii) : bool :=
  let n := N_of_ascii c in ((65 <=? n) && (n <=? 90))%N.

Definition lowerChar (c : ascii) : ascii :=
  if isUpperAscii c then ascii_of_N (N_of_ascii c + 32) else c.

(** [String.prototype.toLowerCase] on the ASCII range.  Bytes of
    non-ASCII characters are left as they are: JavaScript would map some
    of them to other non-ASCII characters, and the only ones it maps into
    ASCII (U+212A to [k], U+0130 to [i] followed by U+0307) do not occur
    in the lower-cased reference address the handler compares with, so
    the comparison below has the same truth value. *)
Fixpoint toLowerCase (s : string) : string :=
  match s with
  | EmptyString => EmptyString
  | String c r => String (lowerChar c) (toLowerCase r)
  end.

(** White space and line terminators stripped by [String.prototype.trim],
    as their UTF-8 byte sequences: TAB, LF, VT, FF, CR, SP, U+00A0,
    U+1680, U+2000 to U+200A, U+2028, U+2029, U+202F, U+205F, U+3000 and
    U+FEFF. *)
Definition bytes (l : list N) : string :=
  fold_right (fun n s => String (ascii_of_N n) s) EmptyString l.

Definition whiteSpace : list string :=
  map bytes
    (List.app
       [[9]; [10]; [11]; [12]; [13]; [32]; [194; 160]; [225; 154; 128]]
       (List.app
          (map (fun n => [226; 128; n])
             [128; 129; 130; 131; 132; 133; 134; 135; 136; 137; 138])
          [[226; 128; 168]; [226; 128; 169]; [226; 128; 175]; [226; 129; 159];
           [227; 128; 128]; [239; 187; 191]]))%N.

(** The rest of [s] after one leading white-space character, if any. *)
Definition stripLeadingSpace (s : string) : option string :=
  fold_right
    (fun ws acc =>
       if String.prefix ws s
       then Some (String.substring (String.length ws) (String.length s - String.length ws) s)
       else acc)
    None whiteSpace.

Fixpoint trimStart_fuel (fuel : nat) (s : string) : string :=
  match fuel with
  | O => s
  | S fuel' =>
      match stripLeadingSpace s with
      | Some r => trimStart_fuel fuel' r
      | None => s
      end
  end.

Definition trimStart (s : string) : string := trimStart_fuel (String.length s) s.

(** The part of [s] before one trailing white-space character, if any. *)
Definition stripTrailingSpace (s : string) : option string :=
  fold_right
    (fun ws acc =>
       let n := String.length s in
       let k := String.length ws in
       if (k <=? n)%nat && String.eqb (String.substring (n - k) k s) ws
       then Some (String.substring 0 (n - k) s)
       else acc)
    None whiteSpace.

Fixpoint trimEnd_fuel (fuel : nat) (s : string) : string :=
  match fuel with
  | O => s
  | S fuel' =>
      match stripTrailingSpace s with
      | Some r => trimEnd_fuel fuel' r
      | None => s
      end
  end.

Definition trimEnd (s : string) : string := trimEnd_fuel (String.length s) s.

(** [String.prototype.trim] *)
Definition trim (s : string) : string := trimEnd (trimStart s).

End Js.

(** ** JavaScript numbers: IEEE binary64 *)

Module JsNumber.

Definition number : Type := spec_float.

Definition prec : Z := 53.
Definition emax : Z := 1024.

(** The double nearest to an integer literal. *)
Definition of_Z (z : Z) : number := binary_normalize prec emax z 0 false.

Definition NaN : number := S754_nan.

(** [x / y], [x >= y], [x > y], [isNaN(x)] *)
Definition div (x y : number) : number := SFdiv prec emax x y.
Definition ge (x y : number) : bool := SFleb y x.
Definition gt (x y : number) : bool := SFltb y x.
Definition isNaN (x : number) : bool :=
  match x with S754_nan => true | _ => false end.

(** ToBoolean on a number: [+0], [-0] and [NaN] are falsy. *)
Definition truthy (x : number) : bool :=
  match x with
  | S754_zero _ | S754_nan => false
  | _ => true
  end.

(** *** Decimal numerals *)

Definition digitChar (d : Z) : ascii := ascii_of_N (48 + Z.to_N d).

Fixpoint digits_fuel (fuel : nat) (n : Z) (acc : string) : string :=
  match fuel with
  | O => acc
  | S fuel' =>
      let acc' := String (digitChar (n mod 10)) acc in
      if n / 10 =? 0 then acc' else digits_fuel fuel' (n / 10) acc'
  end.

(** The decimal numeral of a natural number [n], ["0"] for zero. *)
Definition decimal (n : Z) : string :=
  digits_fuel (S (Z.to_nat (Z.log2 n))) n EmptyString.

(** *** [Number.prototype.toFixed(0)] *)

(** The integer nearest to [m * 2^e], the larger one of two. *)
Definition roundHalfUp (m e : Z) : Z :=
  if 0 <=? e then m * 2 ^ e
  else (m + 2 ^ (- e - 1)) / 2 ^ (- e).

(** [10^21 <= m * 2^e] *)
Definition atLeast1e21 (m e : Z) : bool :=
  if 0 <=? e then 10 ^ 21 <=? m * 2 ^ e
  else 10 ^ 21 * 2 ^ (- e) <=? m.

(** Does the decimal [v] read back as the double [m * 2^e]?  The doubles
    next to it are [2^e] above and, unless [m] is the least mantissa of
    its binade, [2^e] below; a tie goes to the even mantissa. *)
Definition readsBackAs (m e : Z) (v : Z) : bool :=
  let x := 4 * (m * 2 ^ e) in
  let up := 2 * 2 ^ e in
  let down := if m =? 2 ^ 52 then 2 ^ e else 2 * 2 ^ e in
  if Z.even m then (x - down <=? 4 * v) && (4 * v <=? x + up)
  else (x - down <? 4 * v) && (4 * v <? x + up).

(** The shortest decimal that reads back as [x = m * 2^e], tried with
    [k] significant digits first; [d] is the number of digits of [x]. *)
Fixpoint shortest_fuel (fuel : nat) (m e : Z) (d k : Z) : Z :=
  let x := m * 2 ^ e in
  match fuel with
  | O => x
  | S fuel' =>
      let p := 10 ^ (d - k) in
      let lo := x / p * p in
      let hi := lo + p in
      let okLo := readsBackAs m e lo in
      let okHi := readsBackAs m e hi in
      if okLo && okHi then
        if x - lo <? hi - x then lo
        else if hi - x <? x - lo then hi
        else if Z.even (lo / p) then lo else hi
      else if okLo then lo
      else if okHi then hi
      else shortest_fuel fuel' m e d (k + 1)
  end.

Fixpoint dropTrailingZeros (s : string) : string :=
  match s with
  | EmptyString => EmptyString
  | String c r =>
      match dropTrailingZeros r with
      | EmptyString => if Ascii.eqb c "0" then EmptyString else String c EmptyString
      | r' => String c r'
      end
  end.

(** [Number::toString] of an integral double [m * 2^e >= 10^21]: the
    shortest digits that read back, in exponent notation. *)
Definition toStringLarge (m e : Z) : string :=
  let whole := decimal (m * 2 ^ e) in
  let d := Z.of_nat (String.length whole) in
  let all := decimal (shortest_fuel (String.length whole) m e d 1) in
  let n := Z.of_nat (String.length all) in
  match dropTrailingZeros all with
  | EmptyString => "0"
  | String c EmptyString => String c ("e+" ++ decimal (n - 1))
  | String c r => String c ("." ++ r ++ "e+" ++ decimal (n - 1))
  end.

(** [x.toFixed(0)] *)
Definition toFixed0 (x : number) : string :=
  match x with
  | S754_nan => "NaN"
  | S754_infinity false => "Infinity"
  | S754_infinity true => "-Infinity"
  | S754_zero _ => "0"
  | S754_finite s m e =>
      (if s then "-" else "")
      ++ (if atLeast1e21 (Zpos m) e then toStringLarge (Zpos m) e
          else decimal (roundHalfUp (Zpos m) e))
  end.

End JsNumber.

(** ** The token-selection handler of [LiFiWidgetWrapper.tsx] *)

Module LiFiWidgetWrapper.

(** [interface Token] *)
Record Token : Type := {
  address : string;
  symbol : string;
  name : string;
  decimals : Z;
  logoURI : option string;
  chainId : Z
}.

(** [type: 'sell' | 'buy'] *)
Inductive SelectType : Type := sell | buy.

(** [event.detail] *)
Record Detail : Type := { token : Token; type : SelectType }.

(** Solana constants *)
Definition SOLANA_USDC : string := "EPjFWdd5AufqSSqeM2qN1xzybapC8G4wEGGkZwyTDt1v".
Definition SOLANA_CHAIN_ID_TOKENSEARCH : Z := 101.
Definition SOLANA_CHAIN_ID_LIFI : Z := 1151111081099710.

(** Ethereum constants *)
Definition ETHEREUM_USDC : string := "0xA0b86991c6218b36c1d19D4a2e9Eb0cE3606eB48".
Definition ETHEREUM_CHAIN_ID : Z := 1.

(** A value handed to [setFieldValue]: a chain id or a token address. *)
Inductive FieldValue : Type :=
| NumV (n : Z)
| StrV (s : string).

#[global] Instance FieldValue_eq_dec : EqDecision FieldValue.
Proof. solve_decision. Defined.

(** One call [setFieldValue(field, value, { setUrlSearchParam })]. *)
Record Command : Type := {
  field : string;
  value : FieldValue;
  setUrlSearchParam : bool
}.

#[global] Instance Command_eq_dec : EqDecision Command.
Proof. solve_decision. Defined.

(** The widget's live form, reached through [formRef.current]: the field
    values it holds and the calls it has received, oldest first. *)
Record FormState : Type := {
  values : gmap string FieldValue;
  received : list Command
}.

Inductive Level : Type := LogL | WarnL.

Record LogEntry : Type := {
  level : Level;
  message : string;
  payload : list (string * FieldValue)
}.

(** What the handler can touch: [formRef.current] and the console. *)
Record World : Type := {
  formRef_current : option FormState;
  console : list LogEntry
}.

Definition console_log (msg : string) (p : list (string * FieldValue)) : Run World unit :=
  modify (fun w => {| formRef_current := formRef_current w;
                      console := console w ++ [{| level := LogL; message := msg; payload := p |}] |}).

Definition console_warn (msg : string) : Run World unit :=
  modify (fun w => {| formRef_current := formRef_current w;
                      console := console w ++ [{| level := WarnL; message := msg; payload := [] |}] |}).

(** Modelled from the spec: the widget's [setFieldValue] belongs to
    [@lifi/widget], which is not among the sources.  A field-set command is
    an instruction to update one named field of the widget's live form
    state; the widget records the call and stores the value under the
    field's name. *)
Definition apply_command (c : Command) (f : FormState) : FormState :=
  {| values := <[field c := value c]> (values f);
     received := received f ++ [c] |}.

(** [formRef.current.setFieldValue(name, v, { setUrlSearchParam: true })];
    on a null [formRef.current] the member access throws. *)
Definition setFieldValue (name : string) (v : FieldValue) (url : bool) : Run World unit :=
  fun w =>
    match formRef_current w with
    | None => (Thrown "TypeError: formRef.current is null", w)
    | Some f =>
        (Returned tt,
         {| formRef_current :=
              Some (apply_command {| field := name; value := v; setUrlSearchParam := url |} f);
            console := console w |})
    end.

Definition isPrivateStock (t : Token) : bool :=
  chainId t =? SOLANA_CHAIN_ID_TOKENSEARCH.

Definition isPublicTokenizedStock (t : Token) : bool :=
  (chainId t =? ETHEREUM_CHAIN_ID)
  && negb (String.eqb (Js.toLowerCase (address t)) (Js.toLowerCase ETHEREUM_USDC)).

(** Reading [formRef.current]. *)
Definition formRef : Run World (option FormState) :=
  fun w => (Returned (formRef_current w), w).

(** [const handleTokenSelect = (event) => { ... }] *)
Definition handleTokenSelect (event : Detail) : Run World unit :=
  let token := token event in
  let type := type event in
  console_log "LiFi: Token selected:"
    [("symbol", StrV (symbol token));
     ("type", StrV (match type with sell => "sell" | buy => "buy" end));
     ("address", StrV (address token)); ("chainId", NumV (chainId token))] ;;;
  current <- formRef ;;
  match current with
  | None => console_warn "LiFi formRef not ready yet"
  | Some _ =>
      let isPrivateStock := isPrivateStock token in
      let isPublicTokenizedStock := isPublicTokenizedStock token in
      match type with
      | sell =>
          setFieldValue "fromChain" (NumV (chainId token)) true ;;;
          setFieldValue "fromToken" (StrV (address token)) true
      | buy =>
          if isPrivateStock then
            console_log "Private stock selected, switching to Solana with USDC"
              [("fromChain", NumV SOLANA_CHAIN_ID_LIFI); ("fromToken", StrV SOLANA_USDC);
               ("toChain", NumV SOLANA_CHAIN_ID_LIFI); ("toToken", StrV (address token));
               ("tokenSymbol", StrV (symbol token))] ;;;
            setFieldValue "fromChain" (NumV SOLANA_CHAIN_ID_LIFI) true ;;;
            setFieldValue "fromToken" (StrV SOLANA_USDC) true ;;;
            setFieldValue "toChain" (NumV SOLANA_CHAIN_ID_LIFI) true ;;;
            setFieldValue "toToken" (StrV (address token)) true
          else if isPublicTokenizedStock then
            console_log "Public tokenized stock selected, setting USDC as input"
              [("fromChain", NumV ETHEREUM_CHAIN_ID); ("fromToken", StrV ETHEREUM_USDC);
               ("toChain", NumV ETHEREUM_CHAIN_ID); ("toToken", StrV (address token))] ;;;
            setFieldValue "fromChain" (NumV ETHEREUM_CHAIN_ID) true ;;;
            setFieldValue "fromToken" (StrV ETHEREUM_USDC) true ;;;
            setFieldValue "toChain" (NumV ETHEREUM_CHAIN_ID) true ;;;
            setFieldValue "toToken" (StrV (address token)) true
          else
            setFieldValue "toChain" (NumV (chainId token)) true ;;;
            setFieldValue "toToken" (StrV (address token)) true
      end
  end.

End LiFiWidgetWrapper.


(** ** The token-data route of [route.ts] *)

Module TokenDataRoute.

Import JsNumber.

(** Format market cap number to Jupiter's format (e.g., $472B) *)
Definition formatMarketCap (value : number) : string :=
  if ge value (of_Z 1000000000000) then
    "$" ++ toFixed0 (div value (of_Z 1000000000000)) ++ "T"
  else if ge value (of_Z 1000000000) then
    "$" ++ toFixed0 (div value (of_Z 1000000000)) ++ "B"
  else if ge value (of_Z 1000000) then
    "$" ++ toFixed0 (div value (of_Z 1000000)) ++ "M"
  else if ge value (of_Z 1000) then
    "$" ++ toFixed0 (div value (of_Z 1000)) ++ "K"
  else
    "$" ++ toFixed0 value.

(** A JavaScript value, as [request.json()] or an untyped provider
    returns it.  An object lists its own properties, each key once. *)
#[warnings="-register-all"]
Inductive JsVal : Type :=
| JsUndefined
| JsNull
| JsBool (b : bool)
| JsNum (x : number)
| JsStr (s : string)
| JsArr (items : list JsVal)
| JsObj (props : list (string * JsVal)).

(** ToBoolean *)
Definition truthyVal (v : JsVal) : bool :=
  match v with
  | JsUndefined | JsNull => false
  | JsBool b => b
  | JsNum x => truthy x
  | JsStr s => negb (String.eqb s "")
  | JsArr _ | JsObj _ => true
  end.

Fixpoint lookupProp (props : list (string * JsVal)) (key : string) : JsVal :=
  match props with
  | [] => JsUndefined
  | (k, v) :: rest => if String.eqb k key then v else lookupProp rest key
  end.

(** [v.key] for a property no prototype defines; reading it off [null]
    or [undefined] throws. *)
Definition getProp (v : JsVal) (key : string) : Outcome JsVal :=
  match v with
  | JsUndefined | JsNull => Thrown "TypeError: cannot read properties of null or undefined"
  | JsObj props => Returned (lookupProp props key)
  | _ => Returned JsUndefined
  end.

(** [a || b] *)
Definition orElse (a b : JsVal) : JsVal := if truthyVal a then a else b.

(** One entry of [SolanaTokenDataResponse.tokens]; an optional field
    that was never assigned is [None]. *)
Record TokenData : Type := {
  address : string;
  tvlUSD : option number;
  volumeUSD : number;
  marketCap : option number;
  marketCapFormatted : option string;
  priceChange24h : option number
}.

(** [SolanaTokenDataResponse] with the status and headers it is sent with *)
Record Response : Type := {
  status : Z;
  chainId : Z;
  tokens : list TokenData;
  error : option string;
  headers : list (string * string)
}.

(** What the price index returns for a token.  [None] in a field stands
    for [undefined] or [null], which the route never tells apart. *)
Record CoinGeckoData : Type := {
  total_volume : option number;
  market_cap : option number;
  price_change_percentage_24h : option number
}.

(** What a run leaves behind: provider calls and console lines. *)
Inductive Event : Type :=
| FetchTokenPrice (chain : Z) (addr : string)
| ImportYahooFinance
| YfQuote (ticker : string)
| ConsoleDebug (msg : string)
| ConsoleError (msg : string).

#[global] Instance Event_eq_dec : EqDecision Event.
Proof. solve_decision. Defined.

Definition emit (e : Event) : Run (list Event) unit := modify (fun tr => (tr ++ [e])%list).

(** An outside call: it is recorded, then returns or throws. *)
Definition call {A} (e : Event) (result : Outcome A) : Run (list Event) A :=
  fun tr => (result, (tr ++ [e])%list).

(** A call into the repository's own helpers, not recorded. *)
Definition local {A} (result : Outcome A) : Run (list Event) A :=
  fun tr => (result, tr).

(** Fetch market cap from Jupiter token page HTML.
    DISABLED: Jupiter integration removed from frontend *)
Definition fetchJupiterMarketCap (tokenAddress : string) : Run (list Event) (option string) :=
  ret None.

(** Fetch liquidity data from Jupiter API.
    DISABLED: Jupiter integration removed from frontend *)
Definition fetchJupiterLiquidity (tokenAddress : string) : Run (list Event) (option number) :=
  ret None.

Section WithProviders.

(** The token type of [@/lib/utils/token], whose declaration is not
    part of the sources at hand. *)
Variable TokenInfo : Type.

(** [getTokenMetadata]'s result when it is truthy *)
Record TokenMetadata : Type := { token : TokenInfo }.

(** The imported functions, as what they answer.  [fetchTokenPriceByAddress]
    is [@/lib/api/coingecko]; [getTokenMetadata], [isTokenizedStock] and
    [getStockTicker] are [@/lib/utils/token]; [importYahooFinance] and
    [yfQuote] are the dynamic import of [yahoo-finance2] and its [quote]. *)
Record Providers : Type := {
  fetchTokenPriceByAddress : Z -> string -> Outcome (option CoinGeckoData);
  getTokenMetadata : string -> Outcome (option TokenMetadata);
  isTokenizedStock : TokenInfo -> Outcome bool;
  getStockTicker : TokenInfo -> Outcome (option string);
  importYahooFinance : Outcome unit;
  yfQuote : string -> Outcome JsVal
}.

(** [x === undefined || x === null || isNaN(x)] *)
Definition missingOrNaN (x : option number) : bool :=
  match x with
  | None => true
  | Some v => isNaN v
  end.

(** [x || 0] *)
Definition orZero (x : option number) : number :=
  match x with
  | Some v => if truthy v then v else of_Z 0
  | None => of_Z 0
  end.

Definition truthyNum (x : option number) : bool :=
  match x with
  | Some v => truthy v
  | None => false
  end.

Definition truthyStr (x : option string) : bool :=
  match x with
  | Some s => negb (String.eqb s "")
  | None => false
  end.

(** The body of the innermost [try]: import the quotes client, ask for
    the ticker, and take a numeric change if there is one. *)
Definition yfinanceFallback (p : Providers) (ticker : string)
    (priceChange24h : option number) : Run (list Event) (option number) :=
  call ImportYahooFinance (importYahooFinance p) ;;;
  quote <- call (YfQuote ticker) (yfQuote p ticker) ;;
  if truthyVal quote then
    regular <- local (getProp quote "regularMarketChangePercent") ;;
    yfinancePctChange <-
      (if truthyVal regular then ret regular
       else local (getProp quote "changePercent")) ;;
    match yfinancePctChange with
    | JsNum x => if negb (isNaN x) then ret (Some x) else ret priceChange24h
    | _ => ret priceChange24h
    end
  else ret priceChange24h.

(** The body of the [try] around the metadata lookup. *)
Definition stockFallback (p : Providers) (address : string)
    (priceChange24h : option number) : Run (list Event) (option number) :=
  tokenMetadata <- local (getTokenMetadata p address) ;;
  match tokenMetadata with
  | None => ret priceChange24h
  | Some md =>
      isStock <- local (isTokenizedStock p (token md)) ;;
      if isStock : bool then
        ticker <- local (getStockTicker p (token md)) ;;
        match ticker with
        | Some t =>
            if negb (String.eqb t "") then
              try_catch (yfinanceFallback p t priceChange24h)
                (fun _ =>
                   emit (ConsoleDebug ("Failed to fetch yfinance price change for "
                                       ++ address ++ " (" ++ t ++ "):")) ;;;
                   ret priceChange24h)
            else ret priceChange24h
        | None => ret priceChange24h
        end
      else ret priceChange24h
  end.

(** The record returned from the [catch] of a token's task. *)
Definition zeroRecord (address : string) : TokenData :=
  {| address := address; tvlUSD := None; volumeUSD := of_Z 0;
     marketCap := None; marketCapFormatted := None; priceChange24h := None |}.

(** The [async (address) => ...] handed to [addresses.map]. *)
Definition fetchTokenData (p : Providers) (address : string) : Run (list Event) TokenData :=
  try_catch
    (jupiterLiquidity <- fetchJupiterLiquidity address ;;
     jupiterMarketCapFormatted <- fetchJupiterMarketCap address ;;
     coingeckoData <- call (FetchTokenPrice 101 address)
                        (fetchTokenPriceByAddress p 101 address) ;;
     let result :=
       {| address := address; tvlUSD := None;
          volumeUSD := orZero (coingeckoData ≫= total_volume);
          marketCap := None; marketCapFormatted := None; priceChange24h := None |} in
     let result :=
       match jupiterLiquidity with
       | Some liq =>
           if gt liq (of_Z 0) then
             {| address := address; tvlUSD := Some liq; volumeUSD := volumeUSD result;
                marketCap := marketCap result; marketCapFormatted := marketCapFormatted result;
                priceChange24h := priceChange24h result |}
           else result
       | None => result
       end in
     let result :=
       if truthyStr jupiterMarketCapFormatted then
         {| address := address; tvlUSD := tvlUSD result; volumeUSD := volumeUSD result;
            marketCap := marketCap result; marketCapFormatted := jupiterMarketCapFormatted;
            priceChange24h := priceChange24h result |}
       else if truthyNum (coingeckoData ≫= market_cap) then
         {| address := address; tvlUSD := tvlUSD result; volumeUSD := volumeUSD result;
            marketCap := coingeckoData ≫= market_cap;
            marketCapFormatted := marketCapFormatted result;
            priceChange24h := priceChange24h result |}
       else result in
     let fromCoingecko := coingeckoData ≫= price_change_percentage_24h in
     pct <-
       (if missingOrNaN fromCoingecko && negb (String.eqb address "") then
          try_catch (stockFallback p address fromCoingecko)
            (fun _ =>
               emit (ConsoleDebug ("Failed to check token metadata for " ++ address ++ ":")) ;;;
               ret fromCoingecko)
        else ret fromCoingecko) ;;
     if negb (missingOrNaN pct) then
       ret {| address := address; tvlUSD := tvlUSD result; volumeUSD := volumeUSD result;
              marketCap := marketCap result; marketCapFormatted := marketCapFormatted result;
              priceChange24h := pct |}
     else ret result)
    (fun _ =>
       emit (ConsoleError ("Error fetching data for Solana token " ++ address ++ ":")) ;;;
       ret (zeroRecord address)).

(** [typeof addr === 'string' && addr.trim().length > 0] *)
Definition isNonEmptyString (addr : JsVal) : bool :=
  match addr with
  | JsStr a => (0 <? String.length (Js.trim a))%nat
  | _ => false
  end.

(** An entry of [addresses] read at its declared type [string]. *)
Definition asString (addr : JsVal) : string :=
  match addr with
  | JsStr a => a
  | _ => ""
  end.

(** [Promise.all]: the results in order, or the first rejection. *)
Fixpoint promiseAll {A} (results : list (Outcome A)) : Outcome (list A) :=
  match results with
  | [] => Returned []
  | Thrown e :: _ => Thrown e
  | Returned a :: rest =>
      match promiseAll rest with
      | Returned l => Returned (a :: l)
      | Thrown e => Thrown e
      end
  end.

Definition jsonResponse (st : Z) (toks : list TokenData) (err : option string)
    (hs : list (string * string)) : Response :=
  {| status := st; chainId := 101; tokens := toks; error := err; headers := hs |}.

(** A call of [POST], seen from outside: the response, the events of each
    token's task (one list per task, in the order of [addresses]; the tasks
    run interleaved, so no order between two tasks' events is recorded),
    and the route's own console lines. *)
Record Served : Type := {
  response : Response;
  taskEvents : list (list Event);
  routeLog : list Event
}.

Definition internalServerError (events : list (list Event)) : Served :=
  {| response := jsonResponse 500 [] (Some "Internal server error") [];
     taskEvents := events;
     routeLog := [ConsoleError "Error in Solana token-data API route:"] |}.

Definition rejected (msg : string) : Served :=
  {| response := jsonResponse 400 [] (Some msg) []; taskEvents := []; routeLog := [] |}.

(** [export async function POST(request)].  [request_json] is what
    [await request.json()] gives; the [i]-th task talks to [p i]. *)
Definition POST (p : nat -> Providers) (request_json : Outcome JsVal) : Served :=
  match request_json with
  | Thrown _ => internalServerError []
  | Returned body =>
      match getProp body "addresses" with
      | Thrown _ => internalServerError []
      | Returned addresses =>
          match addresses with
          | JsArr items =>
              if (length items =? 0)%nat then
                rejected "Invalid addresses. Must be a non-empty array of token addresses."
              else if negb (forallb isNonEmptyString items) then
                rejected "All addresses must be non-empty strings."
              else
                let runs := imap (fun i addr => fetchTokenData (p i) (asString addr) []) items in
                match promiseAll (map fst runs) with
                | Returned tokensWithData =>
                    {| response :=
                         jsonResponse 200 tokensWithData None
                           [("Cache-Control", "no-store, no-cache, must-revalidate")];
                       taskEvents := map snd runs;
                       routeLog := [] |}
                | Thrown _ => internalServerError (map snd runs)
                end
          | _ => rejected "Invalid addresses. Must be a non-empty array of token addresses."
          end
      end
  end.

End WithProviders.

Arguments token {TokenInfo} _.
Arguments fetchTokenPriceByAddress {TokenInfo} _ _ _.
Arguments getTokenMetadata {TokenInfo} _ _.
Arguments isTokenizedStock {TokenInfo} _ _.
Arguments getStockTicker {TokenInfo} _ _.
Arguments importYahooFinance {TokenInfo} _.
Arguments yfQuote {TokenInfo} _ _.
Arguments yfinanceFallback {TokenInfo} p ticker priceChange24h.
Arguments stockFallback {TokenInfo} p address priceChange24h.
Arguments fetchTokenData {TokenInfo} p address.
Arguments POST {TokenInfo} p request_json.

End TokenDataRoute.


(** * Statements: vocabulary and sample inputs *)

Module Resolver.

Import LiFiWidgetWrapper.

(** The three categories of a selected token. *)
Inductive AssetCategory : Type :=
| PrivateRestrictedAsset
| PublicTokenizedEquity
| Ordinary.

(** The category the handler treats a token as: its two flags, in the
    order in which a destination selection tests them. *)
Definition classify (t : Token) : AssetCategory :=
  if isPrivateStock t then PrivateRestrictedAsset
  else if isPublicTokenizedStock t then PublicTokenizedEquity
  else Ordinary.

(** The world after the handler has run on an event. *)
Definition run_handler (event : Detail) (w : World) : World :=
  snd (handleTokenSelect event w).

(** The calls a run of the handler added to those the widget had
    received. *)
Definition issued (before after : World) : list Command :=
  match formRef_current before, formRef_current after with
  | Some f, Some f' => drop (length (received f)) (received f')
  | _, _ => []
  end.

(** [setFieldValue(name, v, { setUrlSearchParam: true })] as a command. *)
Definition cmd (name : string) (v : FieldValue) : Command :=
  {| field := name; value := v; setUrlSearchParam := true |}.

(** The value the widget holds for a field, if the widget is there. *)
Definition fieldOf (w : World) (name : string) : option FieldValue :=
  formRef_current w ≫= (fun f => values f !! name).

(** Two addresses that differ at most in letter case. *)
Definition sameIgnoringCase (a b : string) : Prop :=
  Js.toLowerCase a = Js.toLowerCase b.

(** The chain value a command carries, if it sets a chain field. *)
Definition chainValue (c : Command) : option Z :=
  match value c with
  | NumV n => Some n
  | StrV _ => None
  end.

Definition mkToken (chain : Z) (addr : string) : Token :=
  {| address := addr; symbol := "TKN"; name := "Token"; decimals := 6;
     logoURI := None; chainId := chain |}.

(** The widget as [config] initialises it, before any selection. *)
Definition initialForm : FormState :=
  {| values := {[ "fromChain" := NumV ETHEREUM_CHAIN_ID;
                  "toChain" := NumV ETHEREUM_CHAIN_ID;
                  "fromToken" := StrV ETHEREUM_USDC;
                  "toToken" := StrV "0x2d1f7226bd1f780af6b9a49dcc0ae00e8df4bdee";
                  "fromAmount" := StrV "100" ]};
     received := [] |}.

Definition readyWorld : World :=
  {| formRef_current := Some initialForm; console := [] |}.

Definition selection (ty : SelectType) (t : Token) : Detail :=
  {| token := t; type := ty |}.

End Resolver.

Module MarketCapFormat.

Import JsNumber.

(** The thresholds and their suffixes, as the specification lists them. *)
Definition thresholds : list (Z * string) :=
  [(1000000000000, "T"); (1000000000, "B"); (1000000, "M"); (1000, "K")].

(** A threshold applies to a value that is at least as large. *)
Definition applicable (v : number) : list (Z * string) :=
  List.filter (fun ts => ge v (of_Z (fst ts))) thresholds.

Definition larger (x : Z * string) (best : option (Z * string)) : option (Z * string) :=
  match best with
  | None => Some x
  | Some y => if fst y <? fst x then Some x else Some y
  end.

(** The largest applicable threshold, if any applies. *)
Definition largestApplicable (v : number) : option (Z * string) :=
  fold_right larger None (applicable v).

(** Zero of either sign, a positive finite value or [+Infinity]. *)
Definition nonNegative (v : number) : bool :=
  match v with
  | S754_zero _ | S754_finite false _ _ | S754_infinity false => true
  | _ => false
  end.

Definition isFinite (q : number) : bool :=
  match q with
  | S754_zero _ | S754_finite _ _ _ => true
  | _ => false
  end.

(** The magnitude of a finite double as a fraction [num / den]. *)
Definition magnitudeNum (q : number) : Z :=
  match q with
  | S754_finite _ m e => if 0 <=? e then Zpos m * 2 ^ e else Zpos m
  | _ => 0
  end.

Definition magnitudeDen (q : number) : Z :=
  match q with
  | S754_finite _ _ e => if 0 <=? e then 1 else 2 ^ (- e)
  | _ => 1
  end.

(** [q] is finite and below [10^21] in magnitude. *)
Definition below1e21 (q : number) : Prop :=
  isFinite q = true /\ magnitudeNum q < 10 ^ 21 * magnitudeDen q.

(** [n] is [q] rounded to zero decimal places: the nearest integer, the
    larger one when [q] lies half way between two. *)
Definition roundsTo (q : number) (n : Z) : Prop :=
  isFinite q = true
  /\ - magnitudeDen q < 2 * (n * magnitudeDen q - magnitudeNum q) <= magnitudeDen q.

(** The number a string of decimal digits denotes. *)
Definition digitValue (c : ascii) : Z := Z.of_N (N_of_ascii c) - 48.

Fixpoint numeralValue (s : string) : Z :=
  match s with
  | EmptyString => 0
  | String c r => digitValue c * 10 ^ Z.of_nat (String.length r) + numeralValue r
  end.

End MarketCapFormat.

Module Batch.

Import JsNumber TokenDataRoute.

(** What the route accepts: a non-empty array of strings, none of them
    blank after trimming. *)
Definition validAddresses (v : JsVal) : Prop :=
  exists items,
    v = JsArr items /\ items <> []
    /\ forall x, In x items -> exists a, x = JsStr a /\ Js.trim a <> "".

(** The request body [{ addresses: [...] }]. *)
Definition bodyOf (addrs : list string) : JsVal :=
  JsObj [("addresses", JsArr (map JsStr addrs))].

(** The price index has nothing for [a]: the call throws or gives [null]. *)
Definition priceIndexFails {T} (q : Providers T) (a : string) : Prop :=
  match fetchTokenPriceByAddress q 101 a with
  | Returned (Some _) => False
  | _ => True
  end.

(** The market-quotes client cannot be loaded, or every quote call throws
    or comes back empty. *)
Definition quotesFail {T} (q : Providers T) : Prop :=
  (exists e, importYahooFinance q = Thrown e)
  \/ (forall t, match yfQuote q t with
                | Thrown _ => True
                | Returned v => truthyVal v = false
                end).

(** Every provider fails for the address. *)
Definition totalFailure {T} (q : Providers T) (a : string) : Prop :=
  priceIndexFails q a /\ quotesFail q.

(** The addresses of a request, read as strings. *)
Definition addressesOf (v : JsVal) : list string :=
  match v with
  | JsArr items => map asString items
  | _ => []
  end.

(** The record a token's task resolves to. *)
Definition recordOf {T} (q : Providers T) (a : string) : TokenData :=
  match fst (fetchTokenData q a []) with
  | Returned r => r
  | Thrown _ => zeroRecord a
  end.

(** The events a token's task leaves. *)
Definition eventsOf {T} (q : Providers T) (a : string) : list Event :=
  snd (fetchTokenData q a []).

(** The fallback is attempted: the price index answered, its 24h change is
    missing or not a number, and the address is not empty. *)
Definition fallbackAttempted {T} (q : Providers T) (a : string) : Prop :=
  exists cg,
    fetchTokenPriceByAddress q 101 a = Returned cg
    /\ missingOrNaN (cg ≫= price_change_percentage_24h) = true
    /\ a <> "".

(** The token passes the tradable-equity test and resolves to ticker [t]. *)
Definition tradableAs {T} (q : Providers T) (a t : string) : Prop :=
  exists md,
    getTokenMetadata q a = Returned (Some md)
    /\ isTokenizedStock q (token md) = Returned true
    /\ getStockTicker q (token md) = Returned (Some t)
    /\ t <> "".

(** A step of the fallback throws: the metadata lookup, the equity test,
    the ticker lookup, the import of the quotes client, or the quote. *)
Definition fallbackFails {T} (q : Providers T) (a : string) : Prop :=
  (exists e, getTokenMetadata q a = Thrown e)
  \/ (exists md, getTokenMetadata q a = Returned (Some md)
               /\ ((exists e, isTokenizedStock q (token md) = Thrown e)
                   \/ (isTokenizedStock q (token md) = Returned true
                       /\ exists e, getStockTicker q (token md) = Thrown e)))
  \/ (exists t, tradableAs q a t
              /\ ((exists e, importYahooFinance q = Thrown e)
                  \/ (exists e, yfQuote q t = Thrown e))).

(** The providers of [q] with another answer of the price index. *)
Definition withPriceData {T} (q : Providers T) (r : Outcome (option CoinGeckoData))
    : Providers T :=
  {| fetchTokenPriceByAddress := fun _ _ => r;
     getTokenMetadata := getTokenMetadata q;
     isTokenizedStock := isTokenizedStock q;
     getStockTicker := getStockTicker q;
     importYahooFinance := importYahooFinance q;
     yfQuote := yfQuote q |}.

(** The same data with no market cap supplied. *)
Definition withoutMarketCap (d : CoinGeckoData) : CoinGeckoData :=
  {| total_volume := total_volume d; market_cap := None;
     price_change_percentage_24h := price_change_percentage_24h d |}.

(** The tokens of the response and the status it is sent with. *)
Definition tokensOf (r : Served) : list TokenData := tokens (response r).
Definition statusOf (r : Served) : Z := status (response r).

(** Events that show the market-quotes provider was reached. *)
Definition isQuotesEvent (e : Event) : bool :=
  match e with
  | ImportYahooFinance | YfQuote _ => true
  | _ => false
  end.

Definition isDebug (e : Event) : bool :=
  match e with
  | ConsoleDebug _ => true
  | _ => false
  end.

Definition isError (e : Event) : bool :=
  match e with
  | ConsoleError _ => true
  | _ => false
  end.

(** Sample providers over tickers as token type. *)
Definition sampleData (cap pct : option number) : CoinGeckoData :=
  {| total_volume := Some (of_Z 1000); market_cap := cap;
     price_change_percentage_24h := pct |}.

Definition healthy (cap pct : option number) (quote : Outcome JsVal) : Providers string :=
  {| fetchTokenPriceByAddress := fun _ _ => Returned (Some (sampleData cap pct));
     getTokenMetadata := fun _ => Returned (Some {| token := "NVDA" |});
     isTokenizedStock := fun _ => Returned true;
     getStockTicker := fun t => Returned (Some t);
     importYahooFinance := Returned tt;
     yfQuote := fun _ => quote |}.

Definition down : Providers string :=
  {| fetchTokenPriceByAddress := fun _ _ => Thrown "fetch failed";
     getTokenMetadata := fun _ => Thrown "lookup failed";
     isTokenizedStock := fun _ => Thrown "lookup failed";
     getStockTicker := fun _ => Thrown "lookup failed";
     importYahooFinance := Thrown "module not found";
     yfQuote := fun _ => Thrown "quote failed" |}.

End Batch.

(** ** The widget wrapper of [src/unnamed/part_000]

    The wrapper with the compact widget: a token-selection handler without
    category rules, two tracking effects and the responsive width. *)

Module CompactWidgetWrapper.

Import LiFiWidgetWrapper JsNumber.

(** The calls into [@/lib/utils/analytics] the wrapper makes. *)
Inductive Tracked : Type :=
| TokenSelected (type : SelectType) (symbol address : string) (chainId : Z)
| SwapWidgetLoaded (chainId : Z)
| ChainChanged (previous current : Z).

#[global] Instance SelectType_eq_dec : EqDecision SelectType.
Proof. solve_decision. Defined.

#[global] Instance Tracked_eq_dec : EqDecision Tracked.
Proof. solve_decision. Defined.

(** What an analytics call does: it depends on the call and on how many
    calls came before, and it returns or throws.  The module is not among
    the sources. *)
Definition Analytics : Type := nat -> Tracked -> Outcome unit.

Inductive ConsoleLine : Type :=
| LogLine (message : string)
| ErrorLine (message : string).

(** The refs of the component, the console and the analytics calls made. *)
Record World : Type := {
  formRef_current : option FormState;
  prevChainIdRef_current : option Z;
  widgetLoadedRef_current : bool;
  console : list ConsoleLine;
  tracked : list Tracked
}.

Definition console_log (msg : string) : Run World unit :=
  modify (fun w =>
            {| formRef_current := formRef_current w;
               prevChainIdRef_current := prevChainIdRef_current w;
               widgetLoadedRef_current := widgetLoadedRef_current w;
               console := (console w ++ [LogLine msg])%list;
               tracked := tracked w |}).

Definition console_error (msg : string) : Run World unit :=
  modify (fun w =>
            {| formRef_current := formRef_current w;
               prevChainIdRef_current := prevChainIdRef_current w;
               widgetLoadedRef_current := widgetLoadedRef_current w;
               console := (console w ++ [ErrorLine msg])%list;
               tracked := tracked w |}).

(** An analytics call: it is made, then returns or throws. *)
Definition track (analytics : Analytics) (e : Tracked) : Run World unit :=
  fun w =>
    (analytics (length (tracked w)) e,
     {| formRef_current := formRef_current w;
        prevChainIdRef_current := prevChainIdRef_current w;
        widgetLoadedRef_current := widgetLoadedRef_current w;
        console := console w;
        tracked := (tracked w ++ [e])%list |}).

Definition formRef : Run World (option FormState) :=
  fun w => (Returned (formRef_current w), w).

(** [formRef.current.setFieldValue(name, v, { setUrlSearchParam: true })] *)
Definition setFieldValue (name : string) (v : FieldValue) (url : bool) : Run World unit :=
  fun w =>
    match formRef_current w with
    | None => (Thrown "TypeError: formRef.current is null", w)
    | Some f =>
        (Returned tt,
         {| formRef_current :=
              Some (apply_command {| field := name; value := v; setUrlSearchParam := url |} f);
            prevChainIdRef_current := prevChainIdRef_current w;
            widgetLoadedRef_current := widgetLoadedRef_current w;
            console := console w;
            tracked := tracked w |})
    end.

(** Handle token selection from header search *)
Definition handleTokenSelect (analytics : Analytics) (token : Token) (type : SelectType)
    : Run World unit :=
  console_log "LiFi: Token selected:" ;;;
  current <- formRef ;;
  if negb (bool_decide (is_Some current)) || String.eqb (address token) "" then ret tt
  else
    try_catch
      (let fieldName := match type with sell => "fromToken" | buy => "toToken" end in
       let chainFieldName := match type with sell => "fromChain" | buy => "toChain" end in
       setFieldValue chainFieldName (NumV (chainId token)) true ;;;
       setFieldValue fieldName (StrV (address token)) true ;;;
       track analytics
         (TokenSelected type (symbol token) (address token) (chainId token)) ;;;
       console_log "LiFi: Token set successfully:")
      (fun _ => console_error "LiFi: Error setting token:").

(** Track widget load: the effect on [[isMounted, chainId]]. *)
Definition trackWidgetLoad (analytics : Analytics) (isMounted : bool) (chainId : Z)
    : Run World unit :=
  fun w =>
    if isMounted && negb (widgetLoadedRef_current w) then
      (track analytics (SwapWidgetLoaded chainId) ;;;
       modify (fun w' =>
                 {| formRef_current := formRef_current w';
                    prevChainIdRef_current := prevChainIdRef_current w';
                    widgetLoadedRef_current := true;
                    console := console w';
                    tracked := tracked w' |})) w
    else (Returned tt, w).

(** Track chain changes: the effect on [[chainId]]. *)
Definition trackChainChange (analytics : Analytics) (chainId : Z) : Run World unit :=
  (fun w =>
     match prevChainIdRef_current w with
     | Some previous =>
         if negb (previous =? chainId)
         then track analytics (ChainChanged previous chainId) w
         else (Returned tt, w)
     | None => (Returned tt, w)
     end) ;;;
  modify (fun w =>
            {| formRef_current := formRef_current w;
               prevChainIdRef_current := Some chainId;
               widgetLoadedRef_current := widgetLoadedRef_current w;
               console := console w;
               tracked := tracked w |}).

(** A template literal [`${n}px`] for an integer [n]. *)
Definition pixels (n : Z) : string :=
  (if n <? 0 then "-" ++ decimal (- n) else decimal n) ++ "px".

(** Calculate responsive width.  [hasWindow] is [typeof window !==
    'undefined']; [windowWidth] is the state holding [window.innerWidth],
    an integer, or [null] before the first measurement. *)
Definition widgetWidth (hasWindow : bool) (windowWidth : option Z) : string :=
  match windowWidth with
  | Some w => if hasWindow && (w <? 768) then pixels (w - 32) else "392px"
  | None => "392px"
  end.

End CompactWidgetWrapper.

(** ** Vocabulary for the further properties *)

Module Coverage.

Import JsNumber TokenDataRoute.

(** The four fields a selection can set. *)
Definition legFields : list string := ["fromChain"; "fromToken"; "toChain"; "toToken"].

(** The commands a selection resolves to, by role and category. *)
Definition commandsFor (ev : LiFiWidgetWrapper.Detail) : list LiFiWidgetWrapper.Command :=
  let t := LiFiWidgetWrapper.token ev in
  match LiFiWidgetWrapper.type ev with
  | LiFiWidgetWrapper.sell =>
      [Resolver.cmd "fromChain" (LiFiWidgetWrapper.NumV (LiFiWidgetWrapper.chainId t));
       Resolver.cmd "fromToken" (LiFiWidgetWrapper.StrV (LiFiWidgetWrapper.address t))]
  | LiFiWidgetWrapper.buy =>
      match Resolver.classify t with
      | Resolver.PrivateRestrictedAsset =>
          [Resolver.cmd "fromChain" (LiFiWidgetWrapper.NumV LiFiWidgetWrapper.SOLANA_CHAIN_ID_LIFI);
           Resolver.cmd "fromToken" (LiFiWidgetWrapper.StrV LiFiWidgetWrapper.SOLANA_USDC);
           Resolver.cmd "toChain" (LiFiWidgetWrapper.NumV LiFiWidgetWrapper.SOLANA_CHAIN_ID_LIFI);
           Resolver.cmd "toToken" (LiFiWidgetWrapper.StrV (LiFiWidgetWrapper.address t))]
      | Resolver.PublicTokenizedEquity =>
          [Resolver.cmd "fromChain" (LiFiWidgetWrapper.NumV LiFiWidgetWrapper.ETHEREUM_CHAIN_ID);
           Resolver.cmd "fromToken" (LiFiWidgetWrapper.StrV LiFiWidgetWrapper.ETHEREUM_USDC);
           Resolver.cmd "toChain" (LiFiWidgetWrapper.NumV LiFiWidgetWrapper.ETHEREUM_CHAIN_ID);
           Resolver.cmd "toToken" (LiFiWidgetWrapper.StrV (LiFiWidgetWrapper.address t))]
      | Resolver.Ordinary =>
          [Resolver.cmd "toChain" (LiFiWidgetWrapper.NumV (LiFiWidgetWrapper.chainId t));
           Resolver.cmd "toToken" (LiFiWidgetWrapper.StrV (LiFiWidgetWrapper.address t))]
      end
  end.

(** Applying commands to the field values of a form, first to last. *)
Definition applyAll (cs : list LiFiWidgetWrapper.Command)
    (vs : gmap string LiFiWidgetWrapper.FieldValue) : gmap string LiFiWidgetWrapper.FieldValue :=
  foldl (fun m c => <[LiFiWidgetWrapper.field c := LiFiWidgetWrapper.value c]> m) vs cs.

(** A request cannot be read: its JSON does not parse, or the body is
    [null] (or [undefined]), which cannot be destructured. *)
Definition unreadable (request_json : Outcome JsVal) : Prop :=
  (exists e, request_json = Thrown e)
  \/ request_json = Returned JsNull
  \/ request_json = Returned JsUndefined.

(** The kinds of events of a token's task. *)
Definition isPriceQuery (e : Event) : bool :=
  match e with
  | FetchTokenPrice _ _ => true
  | _ => false
  end.

Definition isQuotesCall (e : Event) : bool :=
  match e with
  | ImportYahooFinance | YfQuote _ => true
  | _ => false
  end.

Definition isConsoleDebug (e : Event) : bool :=
  match e with
  | ConsoleDebug _ => true
  | _ => false
  end.

(** [NaN], or a value with the sign bit set. *)
Definition negativeOrNaN (v : number) : bool :=
  match v with
  | S754_nan | S754_zero true | S754_infinity true | S754_finite true _ _ => true
  | _ => false
  end.

(** The 24h change a quote yields once [regularMarketChangePercent] is
    falsy: [changePercent] if it is a number other than [NaN]. *)
Definition changePercentOf (props : list (string * JsVal)) (keep : option number)
    : option number :=
  match lookupProp props "changePercent" with
  | JsNum y => if isNaN y then keep else Some y
  | _ => keep
  end.

(** Running effects one after the other; a throw ends the run. *)
Fixpoint runAll {S} (steps : list (Run S unit)) : Run S unit :=
  match steps with
  | [] => ret tt
  | step :: rest => step ;;; runAll rest
  end.

(** The chain changes in a sequence of chain ids: each pair of neighbours
    that differ, starting from the chain seen last, if any. *)
Fixpoint changes (previous : option Z) (chains : list Z)
    : list CompactWidgetWrapper.Tracked :=
  match chains with
  | [] => []
  | c :: rest =>
      match previous with
      | Some p =>
          if p =? c then changes (Some c) rest
          else CompactWidgetWrapper.ChainChanged p c :: changes (Some c) rest
      | None => changes (Some c) rest
      end
  end.

(** Analytics that never throws. *)
Definition quiet : CompactWidgetWrapper.Analytics := fun _ _ => Returned tt.

(** Analytics that throws on every call. *)
Definition broken : CompactWidgetWrapper.Analytics := fun _ _ => Thrown "analytics failed".

(** A compact wrapper whose widget holds form [f], before any effect. *)
Definition mounted (f : LiFiWidgetWrapper.FormState) : CompactWidgetWrapper.World :=
  {| CompactWidgetWrapper.formRef_current := Some f;
     CompactWidgetWrapper.prevChainIdRef_current := None;
     CompactWidgetWrapper.widgetLoadedRef_current := false;
     CompactWidgetWrapper.console := [];
     CompactWidgetWrapper.tracked := [] |}.

End Coverage.

(** * Properties of the token-selection handler *)

Section ResolverProperties.

Import LiFiWidgetWrapper Resolver.

Lemma issued_app (w w' : World) (f : FormState) (cs : list Command) :
  formRef_current w = Some f ->
  formRef_current w' =
    Some {| values := foldl (fun vs c => <[field c := value c]> vs) (values f) cs;
            received := (received f ++ cs)%list |} ->
  issued w w' = cs.
Proof.
  intros Hw Hw'. unfold issued. rewrite Hw, Hw'. simpl.
  apply drop_app_length.
Qed.

Lemma handler_not_ready (ev : Detail) (w : World) :
  formRef_current w = None ->
  formRef_current (run_handler ev w) = None
  /\ fst (handleTokenSelect ev w) = Returned tt.
Proof.
  intros Hw.
  unfold run_handler, handleTokenSelect, bind, console_log, console_warn, modify, formRef.
  simpl. rewrite Hw. simpl. auto.
Qed.

(** The handler never throws, whatever the widget's state. *)
Lemma handleTokenSelect_returns (ev : Detail) (w : World) :
  fst (handleTokenSelect ev w) = Returned tt.
Proof.
  destruct (formRef_current w) as [f|] eqn:Hw; [|by apply handler_not_ready].
  unfold handleTokenSelect, bind, console_log, modify, setFieldValue, formRef.
  simpl. rewrite Hw. simpl.
  destruct ev as [t [|]]; simpl;
    [|destruct (isPrivateStock t); [|destruct (isPublicTokenizedStock t)]];
    simpl; reflexivity.
Qed.

Ltac run_handler_on Hw :=
  unfold run_handler, handleTokenSelect, bind, console_log, modify, setFieldValue, formRef;
  simpl; rewrite ?Hw; simpl.

Ltac finish_form :=
  unfold apply_command; simpl; rewrite <- ?app_assoc; reflexivity.

(** What a ready widget looks like after each kind of selection. *)
Lemma sell_form (t : Token) (w : World) (f : FormState) :
  formRef_current w = Some f ->
  formRef_current (run_handler (selection sell t) w)
  = Some {| values := foldl (fun vs c => <[field c := value c]> vs) (values f)
                        [cmd "fromChain" (NumV (chainId t)); cmd "fromToken" (StrV (address t))];
            received := (received f ++ [cmd "fromChain" (NumV (chainId t));
                                        cmd "fromToken" (StrV (address t))])%list |}.
Proof. intros Hw. run_handler_on Hw. finish_form. Qed.

Lemma buy_private_form (t : Token) (w : World) (f : FormState) :
  formRef_current w = Some f ->
  isPrivateStock t = true ->
  formRef_current (run_handler (selection buy t) w)
  = Some {| values := foldl (fun vs c => <[field c := value c]> vs) (values f)
                        [cmd "fromChain" (NumV SOLANA_CHAIN_ID_LIFI);
                         cmd "fromToken" (StrV SOLANA_USDC);
                         cmd "toChain" (NumV SOLANA_CHAIN_ID_LIFI);
                         cmd "toToken" (StrV (address t))];
            received := (received f ++ [cmd "fromChain" (NumV SOLANA_CHAIN_ID_LIFI);
                                        cmd "fromToken" (StrV SOLANA_USDC);
                                        cmd "toChain" (NumV SOLANA_CHAIN_ID_LIFI);
                                        cmd "toToken" (StrV (address t))])%list |}.
Proof. intros Hw Hp. run_handler_on Hw. rewrite Hp. simpl. finish_form. Qed.

Lemma buy_public_form (t : Token) (w : World) (f : FormState) :
  formRef_current w = Some f ->
  isPrivateStock t = false ->
  isPublicTokenizedStock t = true ->
  formRef_current (run_handler (selection buy t) w)
  = Some {| values := foldl (fun vs c => <[field c := value c]> vs) (values f)
                        [cmd "fromChain" (NumV ETHEREUM_CHAIN_ID);
                         cmd "fromToken" (StrV ETHEREUM_USDC);
                         cmd "toChain" (NumV ETHEREUM_CHAIN_ID);
                         cmd "toToken" (StrV (address t))];
            received := (received f ++ [cmd "fromChain" (NumV ETHEREUM_CHAIN_ID);
                                        cmd "fromToken" (StrV ETHEREUM_USDC);
                                        cmd "toChain" (NumV ETHEREUM_CHAIN_ID);
                                        cmd "toToken" (StrV (address t))])%list |}.
Proof. intros Hw Hp Hq. run_handler_on Hw. rewrite Hp, Hq. simpl. finish_form. Qed.

Lemma buy_ordinary_form (t : Token) (w : World) (f : FormState) :
  formRef_current w = Some f ->
  isPrivateStock t = false ->
  isPublicTokenizedStock t = false ->
  formRef_current (run_handler (selection buy t) w)
  = Some {| values := foldl (fun vs c => <[field c := value c]> vs) (values f)
                        [cmd "toChain" (NumV (chainId t)); cmd "toToken" (StrV (address t))];
            received := (received f ++ [cmd "toChain" (NumV (chainId t));
                                        cmd "toToken" (StrV (address t))])%list |}.
Proof. intros Hw Hp Hq. run_handler_on Hw. rewrite Hp, Hq. simpl. finish_form. Qed.

Lemma classify_private (t : Token) :
  classify t = PrivateRestrictedAsset <-> isPrivateStock t = true.
Proof.
  unfold classify. destruct (isPrivateStock t), (isPublicTokenizedStock t);
    split; intros; congruence.
Qed.

Lemma classify_public (t : Token) :
  classify t = PublicTokenizedEquity
  <-> isPrivateStock t = false /\ isPublicTokenizedStock t = true.
Proof.
  unfold classify. destruct (isPrivateStock t), (isPublicTokenizedStock t);
    (split; [intros H | intros [H1 H2]]); try discriminate; auto.
Qed.

(** C1. A destination selection of a private stock (chain id 101 from the
    search) on a ready widget sends exactly four commands: source chain,
    source token, destination chain, destination token, both chains being
    the LiFi identifier of Solana and the source token Solana USDC. *)
Theorem private_destination_commands (t : Token) (w : World) (f : FormState) :
  formRef_current w = Some f ->
  classify t = PrivateRestrictedAsset ->
  issued w (run_handler (selection buy t) w)
  = [cmd "fromChain" (NumV SOLANA_CHAIN_ID_LIFI);
     cmd "fromToken" (StrV SOLANA_USDC);
     cmd "toChain" (NumV SOLANA_CHAIN_ID_LIFI);
     cmd "toToken" (StrV (address t))]
  /\ fieldOf (run_handler (selection buy t) w) "fromChain" = Some (NumV SOLANA_CHAIN_ID_LIFI)
  /\ fieldOf (run_handler (selection buy t) w) "fromToken" = Some (StrV SOLANA_USDC)
  /\ fieldOf (run_handler (selection buy t) w) "toChain" = Some (NumV SOLANA_CHAIN_ID_LIFI)
  /\ fieldOf (run_handler (selection buy t) w) "toToken" = Some (StrV (address t)).
Proof.
  intros Hw Hc. apply classify_private in Hc.
  split; [eapply issued_app; [exact Hw|]; by apply buy_private_form|].
  unfold fieldOf. rewrite (buy_private_form t w f Hw Hc). simpl.
  repeat split; by simplify_map_eq.
Qed.

Lemma private_destination_commands_witness :
  issued readyWorld (run_handler (selection buy (mkToken 101 "X")) readyWorld)
  = [cmd "fromChain" (NumV 1151111081099710);
     cmd "fromToken" (StrV "EPjFWdd5AufqSSqeM2qN1xzybapC8G4wEGGkZwyTDt1v");
     cmd "toChain" (NumV 1151111081099710);
     cmd "toToken" (StrV "X")].
Proof.
  apply (private_destination_commands (mkToken 101 "X") readyWorld initialForm eq_refl).
  reflexivity.
Defined.

Lemma isPrivateStock_iff (t : Token) :
  isPrivateStock t = true <-> chainId t = SOLANA_CHAIN_ID_TOKENSEARCH.
Proof. unfold isPrivateStock. apply Z.eqb_eq. Qed.

Lemma isPublicTokenizedStock_iff (t : Token) :
  isPublicTokenizedStock t = true
  <-> chainId t = ETHEREUM_CHAIN_ID /\ ~ sameIgnoringCase (address t) ETHEREUM_USDC.
Proof.
  unfold isPublicTokenizedStock, sameIgnoringCase.
  rewrite andb_true_iff, negb_true_iff, Z.eqb_eq, String.eqb_neq. reflexivity.
Qed.

(** C5. [classify] gives every token one category: private exactly when the
    chain id is the search identifier 101; public tokenized equity exactly
    when the chain id is 1 and the address is not Ethereum USDC in any
    letter case; ordinary exactly when neither holds.  It is a function of
    the token alone. *)
Theorem classify_spec (t : Token) :
  (classify t = PrivateRestrictedAsset
   <-> chainId t = SOLANA_CHAIN_ID_TOKENSEARCH)
  /\ (classify t = PublicTokenizedEquity
      <-> chainId t = ETHEREUM_CHAIN_ID /\ ~ sameIgnoringCase (address t) ETHEREUM_USDC)
  /\ (classify t = Ordinary
      <-> chainId t <> SOLANA_CHAIN_ID_TOKENSEARCH
          /\ ~ (chainId t = ETHEREUM_CHAIN_ID
                /\ ~ sameIgnoringCase (address t) ETHEREUM_USDC)).
Proof.
  pose proof (isPrivateStock_iff t) as Hp.
  pose proof (isPublicTokenizedStock_iff t) as Hq.
  assert (Hne : SOLANA_CHAIN_ID_TOKENSEARCH <> ETHEREUM_CHAIN_ID) by discriminate.
  unfold classify.
  destruct (isPrivateStock t) eqn:Ep; destruct (isPublicTokenizedStock t) eqn:Eq.
  - destruct Hp as [Hp _]. specialize (Hp eq_refl).
    destruct Hq as [Hq _]. destruct (Hq eq_refl) as [H1 _]. congruence.
  - destruct Hp as [Hp _]. specialize (Hp eq_refl).
    repeat split; intros; try discriminate; try tauto.
    + destruct H as [H1 _]. congruence.
  - destruct Hq as [Hq _]. specialize (Hq eq_refl).
    assert (chainId t <> SOLANA_CHAIN_ID_TOKENSEARCH)
      by (intros H; apply Hp in H; discriminate).
    repeat split; intros; try discriminate; try tauto.
  - assert (chainId t <> SOLANA_CHAIN_ID_TOKENSEARCH)
      by (intros H; apply Hp in H; discriminate).
    assert (~ (chainId t = ETHEREUM_CHAIN_ID
               /\ ~ sameIgnoringCase (address t) ETHEREUM_USDC))
      by (intros H'; apply Hq in H'; discriminate).
    repeat split; intros; try discriminate; try tauto.
Qed.

(** C3. After a destination selection of a public tokenized stock on a
    ready widget, the form's source chain is Ethereum (1) and its source
    token is Ethereum USDC, whatever the form held before: the handler
    sets source chain, source token, destination chain and destination
    token, in this order. *)
Theorem public_destination_forces_source (t : Token) (w : World) (f : FormState) :
  formRef_current w = Some f ->
  classify t = PublicTokenizedEquity ->
  fieldOf (run_handler (selection buy t) w) "fromChain" = Some (NumV ETHEREUM_CHAIN_ID)
  /\ fieldOf (run_handler (selection buy t) w) "fromToken" = Some (StrV ETHEREUM_USDC)
  /\ issued w (run_handler (selection buy t) w)
     = [cmd "fromChain" (NumV ETHEREUM_CHAIN_ID);
        cmd "fromToken" (StrV ETHEREUM_USDC);
        cmd "toChain" (NumV ETHEREUM_CHAIN_ID);
        cmd "toToken" (StrV (address t))].
Proof.
  intros Hw Hc. apply classify_public in Hc as [Hp Hq].
  split; [|split].
  - unfold fieldOf. rewrite (buy_public_form t w f Hw Hp Hq). simpl.
    by simplify_map_eq.
  - unfold fieldOf. rewrite (buy_public_form t w f Hw Hp Hq). simpl.
    by simplify_map_eq.
  - eapply issued_app; [exact Hw|]. by apply buy_public_form.
Qed.

Lemma public_destination_forces_source_witness :
  let t := mkToken 1 "0x2d1f7226bd1f780af6b9a49dcc0ae00e8df4bdee" in
  let w := {| formRef_current :=
                Some {| values := {[ "fromChain" := NumV 137; "fromToken" := StrV "0xdead" ]};
                        received := [] |};
              console := [] |} in
  fieldOf (run_handler (selection buy t) w) "fromChain" = Some (NumV 1)
  /\ fieldOf (run_handler (selection buy t) w) "fromToken"
     = Some (StrV "0xA0b86991c6218b36c1d19D4a2e9Eb0cE3606eB48").
Proof.
  pose proof (public_destination_forces_source
                (mkToken 1 "0x2d1f7226bd1f780af6b9a49dcc0ae00e8df4bdee")
                {| formRef_current :=
                     Some {| values := {[ "fromChain" := NumV 137;
                                          "fromToken" := StrV "0xdead" ]};
                             received := [] |};
                   console := [] |}
                _ eq_refl eq_refl) as H.
  destruct H as [H1 [H2 _]]. split; [exact H1|exact H2].
Defined.

(** C6. A source selection, whatever the token, sends commands for the
    source chain and source token fields only, and the destination chain
    and destination token of the form stay as they were. *)
Theorem source_selection_keeps_destination (t : Token) (w : World) :
  (forall c, In c (issued w (run_handler (selection sell t) w)) ->
             field c = "fromChain" \/ field c = "fromToken")
  /\ fieldOf (run_handler (selection sell t) w) "toChain" = fieldOf w "toChain"
  /\ fieldOf (run_handler (selection sell t) w) "toToken" = fieldOf w "toToken".
Proof.
  destruct (formRef_current w) as [f|] eqn:Hw.
  - split.
    + erewrite issued_app; [|exact Hw|by apply sell_form].
      intros c [<-|[<-|[]]]; simpl; auto.
    + unfold fieldOf. rewrite (sell_form t w f Hw), Hw. simpl.
      split; by simplify_map_eq.
  - destruct (handler_not_ready (selection sell t) w Hw) as [Hn _].
    unfold fieldOf, issued. rewrite Hn, Hw. simpl. split; [intros c []|auto].
Qed.

(** A destination selection never sends the search identifier 101 as a
    chain value: the private branch sends the LiFi identifier, and the
    other branches are reached only by tokens of another chain. *)
Lemma destination_never_sends_search_id (t : Token) (w : World) (c : Command) :
  In c (issued w (run_handler (selection buy t) w)) ->
  chainValue c <> Some SOLANA_CHAIN_ID_TOKENSEARCH.
Proof.
  destruct (formRef_current w) as [f|] eqn:Hw.
  - destruct (isPrivateStock t) eqn:Hp; [|destruct (isPublicTokenizedStock t) eqn:Hq].
    + erewrite issued_app; [|exact Hw|by apply buy_private_form].
      intros [<-|[<-|[<-|[<-|[]]]]]; simpl; discriminate.
    + erewrite issued_app; [|exact Hw|by apply buy_public_form].
      intros [<-|[<-|[<-|[<-|[]]]]]; simpl; discriminate.
    + erewrite issued_app; [|exact Hw|by apply buy_ordinary_form].
      intros [<-|[<-|[]]]; simpl; [|discriminate].
      intros [= H]. apply isPrivateStock_iff in H. congruence.
  - destruct (handler_not_ready (selection buy t) w Hw) as [Hn _].
    unfold issued. rewrite Hn, Hw. intros [].
Qed.

(** The test for a private stock reads the search identifier: a token that
    carried the LiFi identifier would not pass it. *)
Lemma lifi_id_is_not_compared (a : string) :
  isPrivateStock (mkToken SOLANA_CHAIN_ID_LIFI a) = false
  /\ isPrivateStock (mkToken SOLANA_CHAIN_ID_TOKENSEARCH a) = true.
Proof. split; reflexivity. Qed.

(** C2, at the input where the handler departs from it.  Selecting a
    Solana token as the source forwards the token's chain id as the search
    delivered it: the widget is sent chain 101, not the identifier it
    expects for Solana. *)
Theorem source_selection_sends_search_id :
  issued readyWorld
    (run_handler (selection sell (mkToken SOLANA_CHAIN_ID_TOKENSEARCH SOLANA_USDC)) readyWorld)
  = [cmd "fromChain" (NumV 101); cmd "fromToken" (StrV SOLANA_USDC)]
  /\ exists c,
       In c (issued readyWorld
               (run_handler (selection sell (mkToken SOLANA_CHAIN_ID_TOKENSEARCH SOLANA_USDC))
                  readyWorld))
       /\ chainValue c = Some SOLANA_CHAIN_ID_TOKENSEARCH.
Proof.
  split; [reflexivity|].
  exists (cmd "fromChain" (NumV 101)). split; [left|]; reflexivity.
Qed.

End ResolverProperties.

(** * Properties of [formatMarketCap] *)

Section MarketCapProperties.

Import JsNumber TokenDataRoute MarketCapFormat.

Lemma digitValue_digitChar (d : Z) : 0 <= d < 10 -> digitValue (digitChar d) = d.
Proof.
  intros Hd. unfold digitValue, digitChar.
  rewrite N_ascii_embedding; lia.
Qed.

Lemma digits_fuel_value (fuel : nat) :
  forall n acc,
    0 <= n < 2 ^ Z.of_nat fuel ->
    numeralValue (digits_fuel fuel n acc)
    = n * 10 ^ Z.of_nat (String.length acc) + numeralValue acc.
Proof.
  induction fuel as [|fuel IH]; intros n acc Hn.
  - simpl in *. assert (n = 0) by lia. subst. lia.
  - cbn [digits_fuel].
    assert (Hmod : 0 <= n mod 10 < 10) by (apply Z.mod_pos_bound; lia).
    assert (Hdiv : n = 10 * (n / 10) + n mod 10) by (apply Z.div_mod; lia).
    assert (Hq : 0 <= n / 10) by (apply Z.div_pos; lia).
    destruct (n / 10 =? 0) eqn:Hz.
    + apply Z.eqb_eq in Hz. cbn [numeralValue].
      rewrite digitValue_digitChar by exact Hmod. lia.
    + rewrite IH.
      * cbn [numeralValue String.length]. rewrite digitValue_digitChar by exact Hmod.
        rewrite Nat2Z.inj_succ, Z.pow_succ_r by lia. lia.
      * split; [exact Hq|].
        rewrite Nat2Z.inj_succ, Z.pow_succ_r in Hn by lia.
        apply Z.div_lt_upper_bound; lia.
Qed.

(** [decimal n] is a numeral of [n]. *)
Lemma decimal_value (n : Z) : 0 <= n -> numeralValue (decimal n) = n.
Proof.
  intros Hn. unfold decimal. rewrite digits_fuel_value; [simpl; lia|].
  split; [exact Hn|].
  rewrite Nat2Z.inj_succ, Z2Nat.id by apply Z.log2_nonneg.
  destruct (Z.eq_dec n 0) as [->|Hne]; [reflexivity|].
  apply Z.log2_spec. lia.
Qed.

(** The cascade of tests picks the largest applicable threshold. *)
Lemma formatMarketCap_by_threshold (v : number) :
  formatMarketCap v
  = match largestApplicable v with
    | Some (t, sfx) => "$" ++ toFixed0 (div v (of_Z t)) ++ sfx
    | None => "$" ++ toFixed0 v
    end.
Proof.
  unfold formatMarketCap, largestApplicable, applicable, thresholds.
  cbn [List.filter fst].
  destruct (ge v (of_Z 1000000000000)); destruct (ge v (of_Z 1000000000));
    destruct (ge v (of_Z 1000000)); destruct (ge v (of_Z 1000)); reflexivity.
Qed.

(** What [largestApplicable] returns is a listed threshold that applies,
    and no larger listed threshold applies. *)
Lemma largestApplicable_spec (v : number) (t : Z) (sfx : string) :
  largestApplicable v = Some (t, sfx) ->
  In (t, sfx) thresholds /\ ge v (of_Z t) = true
  /\ forall t' sfx', In (t', sfx') thresholds -> ge v (of_Z t') = true -> t' <= t.
Proof.
  unfold largestApplicable, applicable, thresholds.
  cbn [List.filter fst].
  destruct (ge v (of_Z 1000000000000)) eqn:H12; destruct (ge v (of_Z 1000000000)) eqn:H9;
    destruct (ge v (of_Z 1000000)) eqn:H6; destruct (ge v (of_Z 1000)) eqn:H3;
    cbn; intros [= <- <-]; (split; [cbn; tauto|]); (split; [assumption|]);
    intros t' sfx' [[= <- <-]|[[= <- <-]|[[= <- <-]|[[= <- <-]|[]]]]] Hge;
    try lia; congruence.
Qed.

Lemma largestApplicable_none (v : number) :
  largestApplicable v = None <-> ge v (of_Z 1000) = false /\ applicable v = [].
Proof.
  unfold largestApplicable, applicable, thresholds.
  cbn [List.filter fst].
  destruct (ge v (of_Z 1000000000000)) eqn:H12; destruct (ge v (of_Z 1000000000)) eqn:H9;
    destruct (ge v (of_Z 1000000)) eqn:H6; destruct (ge v (of_Z 1000)) eqn:H3;
    cbn; split; try intros [? ?]; try discriminate; auto.
Qed.

Lemma binary_round_aux_sign (s : bool) (m e : Z) (l : location) :
  match binary_round_aux prec emax s m e l with
  | S754_finite s' _ _ => s' = s
  | _ => True
  end.
Proof.
  unfold binary_round_aux.
  destruct (shr_fexp prec emax m e l) as [mrs' e'].
  destruct (shr_fexp prec emax _ e' loc_Exact) as [mrs'' e''].
  destruct (shr_m mrs''); auto.
  destruct (Z.leb e'' (Z.sub emax prec)); auto.
Qed.

(** A non-negative value divided by a positive finite one is not a
    negative finite value. *)
Lemma div_nonNegative (v : number) (my : positive) (ey : Z) :
  nonNegative v = true ->
  match div v (S754_finite false my ey) with
  | S754_finite s _ _ => s = false
  | _ => True
  end.
Proof.
  destruct v as [s|s| |s m e]; simpl; try discriminate; auto.
  destruct s; [discriminate|]. intros _.
  unfold div, SFdiv.
  destruct (SFdiv_core_binary prec emax (Zpos m) e (Zpos my) ey) as [[mz ez] lz].
  apply binary_round_aux_sign.
Qed.

Lemma pow2_split (e : Z) : e < 0 -> 2 ^ (- e) = 2 * 2 ^ (- e - 1) /\ 0 < 2 ^ (- e - 1).
Proof.
  intros He. split.
  - replace (- e) with (Z.succ (- e - 1)) at 1 by lia. apply Z.pow_succ_r. lia.
  - apply Z.pow_pos_nonneg; lia.
Qed.

(** [roundHalfUp] is rounding to zero decimal places, and the only one. *)
Lemma roundHalfUp_roundsTo (s : bool) (m : positive) (e : Z) :
  roundsTo (S754_finite s m e) (roundHalfUp (Zpos m) e).
Proof.
  unfold roundsTo, roundHalfUp, magnitudeNum, magnitudeDen, isFinite.
  split; [reflexivity|].
  destruct (0 <=? e) eqn:He.
  - lia.
  - apply Z.leb_gt in He. destruct (pow2_split e He) as [Hd Hh].
    set (h := 2 ^ (- e - 1)) in *. rewrite Hd.
    pose proof (Z.div_mod (Zpos m + h) (2 * h) ltac:(lia)) as Hdm.
    pose proof (Z.mod_pos_bound (Zpos m + h) (2 * h) ltac:(lia)) as Hr.
    set (n := (Zpos m + h) / (2 * h)) in *.
    set (r := (Zpos m + h) mod (2 * h)) in *.
    nia.
Qed.

Lemma roundsTo_finite (s : bool) (m : positive) (e : Z) (n : Z) :
  roundsTo (S754_finite s m e) n -> n = roundHalfUp (Zpos m) e.
Proof.
  unfold roundsTo, roundHalfUp, magnitudeNum, magnitudeDen, isFinite.
  intros [_ H]. destruct (0 <=? e) eqn:He.
  - lia.
  - apply Z.leb_gt in He. destruct (pow2_split e He) as [Hd Hh].
    set (h := 2 ^ (- e - 1)) in *. rewrite Hd in *.
    apply (Z.div_unique_pos _ _ n (Zpos m + h - 2 * h * n)); nia.
Qed.

Lemma roundsTo_zero (s : bool) (n : Z) : roundsTo (S754_zero s) n -> n = 0.
Proof. unfold roundsTo; simpl. lia. Qed.

Lemma below1e21_test (s : bool) (m : positive) (e : Z) :
  below1e21 (S754_finite s m e) -> atLeast1e21 (Zpos m) e = false.
Proof.
  unfold below1e21, atLeast1e21, magnitudeNum, magnitudeDen.
  intros [_ H]. destruct (0 <=? e); apply Z.leb_gt; lia.
Qed.

(** Below [10^21], [toFixed(0)] of a non-negative value is the decimal
    numeral of the value rounded to zero decimal places. *)
Lemma toFixed0_rounds (q : number) :
  match q with S754_finite s _ _ => s = false | _ => True end ->
  below1e21 q ->
  exists n, roundsTo q n /\ toFixed0 q = decimal n.
Proof.
  intros Hs Hb. destruct q as [s|s| |s m e]; try (destruct Hb as [Hb _]; discriminate).
  - exists 0. split; [|reflexivity]. unfold roundsTo; simpl. lia.
  - subst s. exists (roundHalfUp (Zpos m) e). split; [apply roundHalfUp_roundsTo|].
    unfold toFixed0. rewrite (below1e21_test _ _ _ Hb). reflexivity.
Qed.

(** The thresholds are exact doubles, and [toFixed(0)] rounds halves
    upward and leaves decimal notation at [10^21]. *)
Example thresholds_exact :
  Forall (fun ts => magnitudeNum (of_Z (fst ts)) = fst ts * magnitudeDen (of_Z (fst ts))
                    /\ valid_binary prec emax (of_Z (fst ts)) = true)
    thresholds.
Proof. repeat constructor. Qed.

Example toFixed0_samples :
  toFixed0 (div (of_Z 1) (of_Z 2)) = "1"
  /\ toFixed0 (div (of_Z 5) (of_Z 2)) = "3"
  /\ toFixed0 (div (of_Z 1999) (of_Z 2)) = "1000"
  /\ toFixed0 (of_Z (10 ^ 21 - 2 ^ 17)) = "999999999999999868928"
  /\ toFixed0 (of_Z (10 ^ 21)) = "1e+21"
  /\ toFixed0 NaN = "NaN".
Proof. repeat split; vm_compute; reflexivity. Qed.

(** Rounding can reach the next power of ten without changing the suffix. *)
Example formatMarketCap_near_threshold :
  formatMarketCap (of_Z 999999) = "$1000K"
  /\ formatMarketCap (div (of_Z 1999) (of_Z 2)) = "$1000".
Proof. split; vm_compute; reflexivity. Qed.

Lemma threshold_is_positive_finite (t : Z) (sfx : string) :
  In (t, sfx) thresholds -> exists my ey, of_Z t = S754_finite false my ey.
Proof.
  intros [[= <- <-]|[[= <- <-]|[[= <- <-]|[[= <- <-]|[]]]]];
    vm_compute; eauto.
Qed.

(** C8, as amended.  For a non-negative input whose quotient by the largest
    applicable threshold (the double that [/] yields) is finite and below
    [10^21], [formatMarketCap] returns [$], the quotient rounded to zero
    decimal places, and the threshold's suffix; with no applicable
    threshold (input below [10^3]) it returns [$] and the rounded input.
    In particular 472000000000 gives [$472B], 999 gives [$999] and
    1000000000000 gives [$1T]. *)
Theorem formatMarketCap_rounds (v : number) :
  nonNegative v = true ->
  (forall t sfx,
      largestApplicable v = Some (t, sfx) ->
      below1e21 (div v (of_Z t)) ->
      exists n, roundsTo (div v (of_Z t)) n
                /\ formatMarketCap v = "$" ++ decimal n ++ sfx)
  /\ (largestApplicable v = None ->
      below1e21 v ->
      exists n, roundsTo v n /\ formatMarketCap v = "$" ++ decimal n)
  /\ formatMarketCap (of_Z 472000000000) = "$472B"
  /\ formatMarketCap (of_Z 999) = "$999"
  /\ formatMarketCap (of_Z 1000000000000) = "$1T".
Proof.
  intros Hv. split; [|split; [|repeat split; vm_compute; reflexivity]].
  - intros t sfx Hl Hb. rewrite formatMarketCap_by_threshold, Hl.
    destruct (largestApplicable_spec v t sfx Hl) as [Hin _].
    destruct (threshold_is_positive_finite t sfx Hin) as [my [ey Ht]].
    pose proof (div_nonNegative v my ey Hv) as Hs. rewrite <- Ht in Hs.
    destruct (toFixed0_rounds _ Hs Hb) as [n [Hr Hn]].
    exists n. split; [exact Hr|]. by rewrite Hn.
  - intros Hl Hb. rewrite formatMarketCap_by_threshold, Hl.
    assert (Hs : match v with S754_finite s _ _ => s = false | _ => True end).
    { destruct v as [| | |[|] ? ?]; simpl in Hv; try discriminate; auto. }
    destruct (toFixed0_rounds _ Hs Hb) as [n [Hr Hn]].
    exists n. split; [exact Hr|]. by rewrite Hn.
Qed.

Lemma formatMarketCap_rounds_witness :
  exists n, roundsTo (div (of_Z 472000000000) (of_Z 1000000000)) n
            /\ formatMarketCap (of_Z 472000000000) = "$" ++ decimal n ++ "B".
Proof.
  apply (proj1 (formatMarketCap_rounds (of_Z 472000000000) eq_refl) 1000000000 "B").
  - reflexivity.
  - split; [reflexivity|]. vm_compute. reflexivity.
Defined.

(** C8 as stated fails when the quotient reaches [10^21]: [toFixed(0)]
    then answers in exponent notation.  The input is [2^120]. *)
Lemma formatMarketCap_exponent_counterexample :
  nonNegative (of_Z (2 ^ 120)) = true
  /\ largestApplicable (of_Z (2 ^ 120)) = Some (1000000000000, "T")
  /\ formatMarketCap (of_Z (2 ^ 120)) = "$1.3292279957849158e+24T"
  /\ ~ (exists n, roundsTo (div (of_Z (2 ^ 120)) (of_Z 1000000000000)) n
                  /\ formatMarketCap (of_Z (2 ^ 120)) = "$" ++ decimal n ++ "T").
Proof.
  split; [reflexivity|]. split; [vm_compute; reflexivity|].
  split; [vm_compute; reflexivity|].
  intros [n [Hr He]].
  remember (div (of_Z (2 ^ 120)) (of_Z 1000000000000)) as q eqn:Hq.
  vm_compute in Hq. subst q.
  apply roundsTo_finite in Hr. subst n.
  vm_compute in He. discriminate.
Qed.

End MarketCapProperties.

(** * Properties of the token-data route *)

Section RouteProperties.

Import JsNumber TokenDataRoute Batch.

Context {T : Type}.

Ltac run_task :=
  unfold fetchTokenData, stockFallback, yfinanceFallback, try_catch, bind, ret,
    call, local, emit, modify, fetchJupiterLiquidity, fetchJupiterMarketCap;
  simpl.

(** A token's task never rejects, and its record carries the address. *)
Lemma fetchTokenData_returns (q : Providers T) (a : string) (tr : list Event) :
  exists r tr', fetchTokenData q a tr = (Returned r, tr') /\ address r = a.
Proof.
  run_task. repeat (case_match; simpl in *; simplify_eq); eauto.
Qed.

Lemma fetchTokenData_recordOf (q : Providers T) (a : string) :
  fetchTokenData q a [] = (Returned (recordOf q a), eventsOf q a).
Proof.
  unfold recordOf, eventsOf.
  destruct (fetchTokenData_returns q a []) as [r [tr' [H _]]].
  rewrite H. reflexivity.
Qed.

Lemma recordOf_address (q : Providers T) (a : string) : address (recordOf q a) = a.
Proof.
  unfold recordOf.
  destruct (fetchTokenData_returns q a []) as [r [tr' [H Ha]]].
  rewrite H. exact Ha.
Qed.

(** When every provider fails for an address, its record is the zero
    record. *)
Lemma totalFailure_zeroRecord (q : Providers T) (a : string) :
  totalFailure q a -> recordOf q a = zeroRecord a.
Proof.
  unfold totalFailure, priceIndexFails, quotesFail, recordOf.
  intros [Hp Hq]. run_task.
  destruct (fetchTokenPriceByAddress q 101 a) as [[d|]|e]; [contradiction| |reflexivity].
  simpl.
  destruct Hq as [[e He]|Hq].
  - rewrite He. repeat (case_match; simpl in *; simplify_eq); reflexivity.
  - repeat (case_match; simpl in *; simplify_eq); try reflexivity;
      match goal with
      | H : yfQuote q ?t = Returned _ |- _ =>
          let Ht := fresh in pose proof (Hq t) as Ht; rewrite H in Ht; congruence
      end.
Qed.

(** [Promise.all] over tasks that all resolve. *)
Lemma promiseAll_tasks (p : nat -> Providers T) (items : list JsVal) :
  promiseAll (map fst (imap (fun i addr => fetchTokenData (p i) (asString addr) []) items))
  = Returned (imap (fun i addr => recordOf (p i) (asString addr)) items).
Proof.
  revert p. induction items as [|x items IH]; intros p; [reflexivity|].
  simpl. rewrite fetchTokenData_recordOf. simpl.
  unfold compose. rewrite (IH (fun i => p (S i))). reflexivity.
Qed.

Lemma snd_tasks (p : nat -> Providers T) (items : list JsVal) :
  map snd (imap (fun i addr => fetchTokenData (p i) (asString addr) []) items)
  = imap (fun i addr => eventsOf (p i) (asString addr)) items.
Proof.
  revert p. induction items as [|x items IH]; intros p; [reflexivity|].
  simpl. unfold compose. rewrite (IH (fun i => p (S i))). reflexivity.
Qed.

Lemma trim_nonblank_length (a : string) :
  Js.trim a <> "" <-> (0 <? String.length (Js.trim a))%nat = true.
Proof.
  destruct (Js.trim a); simpl; split; intros; try congruence; auto.
Qed.

Lemma validAddresses_checks (items : list JsVal) :
  validAddresses (JsArr items)
  <-> (length items =? 0)%nat = false /\ forallb isNonEmptyString items = true.
Proof.
  unfold validAddresses. split.
  - intros [items' [[= <-] [Hne Hall]]]. split.
    + destruct items; [contradiction|reflexivity].
    + apply forallb_forall. intros x Hx.
      destruct (Hall x Hx) as [a [-> Ha]]. simpl. by apply trim_nonblank_length.
  - intros [Hlen Hall]. exists items. split; [reflexivity|]. split.
    + destruct items; [discriminate|discriminate].
    + intros x Hx. rewrite forallb_forall in Hall. specialize (Hall x Hx).
      destruct x; simpl in Hall; try discriminate.
      eexists. split; [reflexivity|]. by apply trim_nonblank_length.
Qed.

(** What [POST] does with a valid request. *)
Lemma POST_valid (p : nat -> Providers T) (body : JsVal) (items : list JsVal) :
  getProp body "addresses" = Returned (JsArr items) ->
  validAddresses (JsArr items) ->
  POST p (Returned body)
  = {| response :=
         jsonResponse 200 (imap (fun i addr => recordOf (p i) (asString addr)) items) None
           [("Cache-Control", "no-store, no-cache, must-revalidate")];
       taskEvents := imap (fun i addr => eventsOf (p i) (asString addr)) items;
       routeLog := [] |}.
Proof.
  intros Hget Hv. apply validAddresses_checks in Hv as [Hlen Hall].
  unfold POST. rewrite Hget, Hlen, Hall. simpl.
  rewrite promiseAll_tasks, snd_tasks. reflexivity.
Qed.

Lemma addresses_of_records (p : nat -> Providers T) (items : list JsVal) :
  map address (imap (fun i addr => recordOf (p i) (asString addr)) items)
  = map asString items.
Proof.
  revert p. induction items as [|x items IH]; intros p; [reflexivity|].
  simpl. rewrite recordOf_address. unfold compose.
  rewrite (IH (fun i => p (S i))). reflexivity.
Qed.

(** In a valid batch the record at a position is the one its task built. *)
Lemma batch_record_at (p : nat -> Providers T) (body v : JsVal) (i : nat) (a : string) :
  getProp body "addresses" = Returned v ->
  validAddresses v ->
  addressesOf v !! i = Some a ->
  tokensOf (POST p (Returned body)) !! i = Some (recordOf (p i) a).
Proof.
  intros Hget Hv Hi.
  assert (Hitems : exists items, v = JsArr items) by (destruct Hv as [items [-> _]]; eauto).
  destruct Hitems as [items ->].
  unfold tokensOf. rewrite (POST_valid p body items Hget Hv).
  cbn [response tokens jsonResponse]. rewrite list_lookup_imap.
  unfold addressesOf in Hi. rewrite list_lookup_fmap in Hi.
  destruct (items !! i) as [x|]; simpl in *; [|discriminate].
  by injection Hi as <-.
Qed.

Lemma batch_status_ok (p : nat -> Providers T) (body v : JsVal) :
  getProp body "addresses" = Returned v ->
  validAddresses v ->
  statusOf (POST p (Returned body)) = 200
  /\ error (response (POST p (Returned body))) = None.
Proof.
  intros Hget Hv.
  assert (Hitems : exists items, v = JsArr items) by (destruct Hv as [items [-> _]]; eauto).
  destruct Hitems as [items ->].
  unfold statusOf. rewrite (POST_valid p body items Hget Hv). split; reflexivity.
Qed.

(** C4. A valid batch is answered with status 200 and no error, one record
    per address in the order of the request.  When every provider fails for
    the address at some position, the record there has volume 0 and no
    optional field; and changing what the providers do at one position
    changes neither the status nor the record at any other position. *)
Theorem batch_records_in_order (p : nat -> Providers T) (body v : JsVal) :
  getProp body "addresses" = Returned v ->
  validAddresses v ->
  statusOf (POST p (Returned body)) = 200
  /\ error (response (POST p (Returned body))) = None
  /\ map address (tokensOf (POST p (Returned body))) = addressesOf v
  /\ (forall i a,
        addressesOf v !! i = Some a ->
        totalFailure (p i) a ->
        tokensOf (POST p (Returned body)) !! i = Some (zeroRecord a))
  /\ (forall p' i,
        (forall j, j <> i -> p' j = p j) ->
        statusOf (POST p' (Returned body)) = 200
        /\ forall j, j <> i ->
             tokensOf (POST p' (Returned body)) !! j
             = tokensOf (POST p (Returned body)) !! j).
Proof.
  intros Hget Hv.
  destruct (batch_status_ok p body v Hget Hv) as [Hst Herr].
  split; [exact Hst|]. split; [exact Herr|]. split; [|split].
  - assert (Hitems : exists items, v = JsArr items)
      by (destruct Hv as [items [-> _]]; eauto).
    destruct Hitems as [items ->].
    unfold tokensOf. rewrite (POST_valid p body items Hget Hv).
    apply addresses_of_records.
  - intros i a Hi Hfail.
    rewrite (batch_record_at p body v i a Hget Hv Hi).
    by rewrite totalFailure_zeroRecord.
  - intros p' i Hsame.
    split; [apply (batch_status_ok p' body v Hget Hv)|].
    intros j Hj.
    destruct (addressesOf v !! j) as [a|] eqn:Ha.
    + rewrite (batch_record_at p body v j a Hget Hv Ha).
      rewrite (batch_record_at p' body v j a Hget Hv Ha).
      by rewrite (Hsame j Hj).
    + assert (Hlen : forall p0 : nat -> Providers T,
                 length (tokensOf (POST p0 (Returned body))) = length (addressesOf v)).
      { intros p0.
        assert (Hitems : exists items, v = JsArr items)
          by (destruct Hv as [items [-> _]]; eauto).
        destruct Hitems as [items ->].
        unfold tokensOf. rewrite (POST_valid p0 body items Hget Hv).
        cbn [response tokens jsonResponse addressesOf].
        by rewrite length_imap, length_map. }
      apply lookup_ge_None in Ha.
      rewrite !(proj2 (lookup_ge_None _ _)); [reflexivity| |]; rewrite Hlen; exact Ha.
Qed.

(** C7. A request whose [addresses] is not a non-empty array of strings
    that are non-blank after trimming is answered with status 400, an error
    message and no tokens, and no token task is started, so no provider is
    contacted. *)
Theorem invalid_batch_rejected (p : nat -> Providers T) (body v : JsVal) :
  getProp body "addresses" = Returned v ->
  ~ validAddresses v ->
  statusOf (POST p (Returned body)) = 400
  /\ is_Some (error (response (POST p (Returned body))))
  /\ tokensOf (POST p (Returned body)) = []
  /\ taskEvents (POST p (Returned body)) = [].
Proof.
  intros Hget Hv. unfold statusOf, tokensOf, POST. rewrite Hget.
  destruct v as [| | | | |items|]; simpl; try by eauto.
  destruct (length items =? 0)%nat eqn:Hlen; simpl; [by eauto|].
  destruct (forallb isNonEmptyString items) eqn:Hall; simpl; [|by eauto].
  exfalso. apply Hv. by apply validAddresses_checks.
Qed.

Ltac split_cases :=
  repeat (case_match; simpl in *; simplify_eq).

Ltac neq_empty :=
  repeat match goal with
    | H : negb (String.eqb _ "") = true |- _ => apply negb_true_iff, String.eqb_neq in H
    | H : negb (String.eqb _ "") = false |- _ => apply negb_false_iff, String.eqb_eq in H
    | H : String.eqb _ "" = false |- _ => apply String.eqb_neq in H
    | H : String.eqb _ "" = true |- _ => apply String.eqb_eq in H
    end.

(** A number from the price index is the record's 24h change, and the
    quotes provider is not reached. *)
Lemma price_index_change_taken (q : Providers T) (a : string) (d : CoinGeckoData) (x : number) :
  fetchTokenPriceByAddress q 101 a = Returned (Some d) ->
  price_change_percentage_24h d = Some x ->
  isNaN x = false ->
  priceChange24h (recordOf q a) = Some x
  /\ forall e, In e (eventsOf q a) -> isQuotesEvent e = false.
Proof.
  intros Hf Hd Hx. unfold recordOf, eventsOf. run_task.
  rewrite Hf. simpl. rewrite Hd. simpl. rewrite Hx. simpl.
  split_cases; try (rewrite Hx in *; discriminate);
    (split; [reflexivity|]); intros e [<-|[]]; reflexivity.
Qed.

(** The quotes provider is asked for [t] only on the fallback path of a
    token that is tradable as [t]. *)
Lemma quote_only_on_fallback (q : Providers T) (a t : string) :
  In (YfQuote t) (eventsOf q a) -> fallbackAttempted q a /\ tradableAs q a t.
Proof.
  unfold eventsOf, fallbackAttempted, tradableAs. run_task.
  split_cases; intros Hin; simpl in Hin; try tauto;
    try (exfalso; intuition congruence).
  all: repeat match goal with H : _ \/ _ |- _ => destruct H end; simplify_eq.
  all: try contradiction.
  all: match goal with H : _ && _ = true |- _ => apply andb_true_iff in H as [? ?] end.
  all: neq_empty.
  all: split;
    [eexists; split; [reflexivity|]; split; assumption
    |eexists; split; [reflexivity|]; split; [eassumption|];
     split; [eassumption|assumption]].
Qed.

Ltac swallowed :=
  split_cases; try congruence;
  (split; [reflexivity|]);
  (split;
   [eexists; simpl; repeat (first [left; reflexivity | right])
   |let ev := fresh "ev" in let Hin := fresh "Hin" in
    intros ev Hin; simpl in Hin;
    repeat (destruct Hin as [<-|Hin]; [reflexivity|]); contradiction]).

(** A step of the fallback that throws leaves the 24h change absent, is
    logged at debug level, and never reaches the task's own [catch]. *)
Lemma fallback_failure_swallowed (q : Providers T) (a : string) :
  fallbackAttempted q a ->
  fallbackFails q a ->
  priceChange24h (recordOf q a) = None
  /\ (exists msg, In (ConsoleDebug msg) (eventsOf q a))
  /\ forall e, In e (eventsOf q a) -> isError e = false.
Proof.
  intros [cg [Hf [Hm Ha]]] Hfail.
  apply String.eqb_neq in Ha.
  unfold recordOf, eventsOf. run_task.
  rewrite Hf. simpl. rewrite Hm, Ha. simpl.
  destruct Hfail as [[e He]|[[md [Hmd [[e He]|[Hst [e He]]]]]|[t [[md [Hmd [Hst [Htk Ht]]]] Hq]]]].
  - rewrite He. simpl. rewrite Hm. simpl. swallowed.
  - rewrite Hmd. simpl. rewrite He. simpl. rewrite Hm. simpl. swallowed.
  - rewrite Hmd. simpl. rewrite Hst. simpl. rewrite He. simpl. rewrite Hm. simpl. swallowed.
  - apply String.eqb_neq in Ht.
    rewrite Hmd. simpl. rewrite Hst. simpl. rewrite Htk. simpl. rewrite Ht. simpl.
    destruct Hq as [[e He]|[e He]].
    + rewrite He. simpl. rewrite Hm. simpl. swallowed.
    + rewrite He. destruct (importYahooFinance q); simpl; rewrite Hm; simpl; swallowed.
Qed.

(** C9. The 24h change of a token's record is the price index's number
    when it has one, and then the quotes provider is not reached.  The
    quotes provider is asked for a ticker only when the price index
    answered without a usable number and the token passes the equity test
    and resolves to that ticker.  A step of this fallback that throws is
    logged at debug level and leaves the field absent; the batch is
    answered with status 200 and no error all the same, with the task's
    record in its place. *)
Theorem price_change_fallback (q : Providers T) (a : string) :
  (forall d x,
      fetchTokenPriceByAddress q 101 a = Returned (Some d) ->
      price_change_percentage_24h d = Some x ->
      isNaN x = false ->
      priceChange24h (recordOf q a) = Some x
      /\ forall e, In e (eventsOf q a) -> isQuotesEvent e = false)
  /\ (forall t,
        In (YfQuote t) (eventsOf q a) ->
        fallbackAttempted q a /\ tradableAs q a t)
  /\ (fallbackAttempted q a ->
      fallbackFails q a ->
      priceChange24h (recordOf q a) = None
      /\ (exists msg, In (ConsoleDebug msg) (eventsOf q a))
      /\ forall e, In e (eventsOf q a) -> isError e = false)
  /\ (forall (p : nat -> Providers T) body v i,
        getProp body "addresses" = Returned v ->
        validAddresses v ->
        addressesOf v !! i = Some a ->
        p i = q ->
        statusOf (POST p (Returned body)) = 200
        /\ error (response (POST p (Returned body))) = None
        /\ tokensOf (POST p (Returned body)) !! i = Some (recordOf q a)).
Proof.
  split; [intros d x; apply price_index_change_taken|].
  split; [intros t; apply quote_only_on_fallback|].
  split; [apply fallback_failure_swallowed|].
  intros p body v i Hget Hv Hi <-.
  destruct (batch_status_ok p body v Hget Hv) as [Hst Herr].
  split; [exact Hst|]. split; [exact Herr|].
  exact (batch_record_at p body v i a Hget Hv Hi).
Qed.

(** A market cap that is a non-zero number is reported as it is. *)
Lemma nonzero_market_cap_reported (q : Providers T) (a : string) (d : CoinGeckoData)
    (x : number) :
  market_cap d = Some x ->
  truthy x = true ->
  marketCap (recordOf (withPriceData q (Returned (Some d))) a) = Some x.
Proof.
  intros Hd Hx. unfold recordOf. run_task. rewrite Hd. simpl. rewrite Hx.
  split_cases; reflexivity.
Qed.

(** C10. When the price index reports a market cap of zero, the record has
    no [marketCap] (and no [marketCapFormatted]): it is the very record
    the task builds when the price index supplies no market cap at all. *)
Theorem zero_market_cap_dropped (q : Providers T) (a : string) (d : CoinGeckoData)
    (s : bool) :
  market_cap d = Some (S754_zero s) ->
  marketCap (recordOf (withPriceData q (Returned (Some d))) a) = None
  /\ marketCapFormatted (recordOf (withPriceData q (Returned (Some d))) a) = None
  /\ recordOf (withPriceData q (Returned (Some d))) a
     = recordOf (withPriceData q (Returned (Some (withoutMarketCap d)))) a
  /\ (forall (p : nat -> Providers T) body v i,
        getProp body "addresses" = Returned v ->
        validAddresses v ->
        addressesOf v !! i = Some a ->
        p i = withPriceData q (Returned (Some d)) ->
        exists r, tokensOf (POST p (Returned body)) !! i = Some r
                  /\ marketCap r = None
                  /\ r = recordOf (withPriceData q (Returned (Some (withoutMarketCap d)))) a).
Proof.
  intros Hd.
  assert (Hrec : marketCap (recordOf (withPriceData q (Returned (Some d))) a) = None
                 /\ marketCapFormatted (recordOf (withPriceData q (Returned (Some d))) a)
                    = None
                 /\ recordOf (withPriceData q (Returned (Some d))) a
                    = recordOf (withPriceData q (Returned (Some (withoutMarketCap d)))) a).
  { unfold recordOf. run_task. rewrite Hd. simpl.
    split_cases; repeat split; reflexivity. }
  destruct Hrec as [H1 [H2 H3]]. repeat split; try assumption.
  intros p body v i Hget Hv Hi Hp.
  exists (recordOf (p i) a). rewrite Hp.
  split; [rewrite <- Hp; exact (batch_record_at p body v i a Hget Hv Hi)|].
  split; assumption.
Qed.

End RouteProperties.

(** * The route on sample requests *)

Section RouteSamples.

Import JsNumber TokenDataRoute Batch.

Lemma batch_records_in_order_witness :
  statusOf (POST (fun i => if (i =? 1)%nat then down
                           else healthy None (Some (of_Z 2)) (Returned JsNull))
              (Returned (bodyOf ["A"; "B"; "C"]))) = 200
  /\ tokensOf (POST (fun i => if (i =? 1)%nat then down
                              else healthy None (Some (of_Z 2)) (Returned JsNull))
                 (Returned (bodyOf ["A"; "B"; "C"]))) !! 1%nat
     = Some (zeroRecord "B").
Proof.
  pose proof (batch_records_in_order
                (fun i => if (i =? 1)%nat then down
                          else healthy None (Some (of_Z 2)) (Returned JsNull))
                (bodyOf ["A"; "B"; "C"]) (JsArr (map JsStr ["A"; "B"; "C"])) eq_refl) as H.
  destruct H as [H200 [_ [_ [Hzero _]]]].
  - apply validAddresses_checks. split; reflexivity.
  - split; [exact H200|].
    apply (Hzero 1%nat "B" eq_refl).
    split; [exact I|]. left. exists "module not found". reflexivity.
Defined.

Lemma invalid_batch_rejected_witness :
  statusOf (POST (fun _ => down) (Returned (bodyOf ["0xAAA"; ""]))) = 400
  /\ is_Some (error (response (POST (fun _ => down) (Returned (bodyOf ["0xAAA"; ""])))))
  /\ tokensOf (POST (fun _ => down) (Returned (bodyOf ["0xAAA"; ""]))) = []
  /\ taskEvents (POST (fun _ => down) (Returned (bodyOf ["0xAAA"; ""]))) = [].
Proof.
  apply (invalid_batch_rejected (fun _ => down) (bodyOf ["0xAAA"; ""])
           (JsArr (map JsStr ["0xAAA"; ""])) eq_refl).
  intros Hv. apply validAddresses_checks in Hv as [_ Hall]. discriminate Hall.
Defined.

(** [trim] strips ASCII and Unicode white space at both ends only. *)
Example trim_samples :
  Js.trim "  ab c  " = "ab c"
  /\ Js.trim (Js.bytes [32; 194; 160; 10; 226; 128; 168]%N) = ""
  /\ Js.trim "" = ""
  /\ isNonEmptyString (JsStr "   ") = false
  /\ isNonEmptyString (JsNum (of_Z 7)) = false
  /\ isNonEmptyString (JsStr " EPjFWdd5AufqSSqeM2qN1xzybapC8G4wEGGkZwyTDt1v") = true.
Proof. repeat split; vm_compute; reflexivity. Qed.

(** A body that is [null], or a request whose JSON cannot be read, takes
    the route's outer [catch]. *)
Example unreadable_request :
  statusOf (POST (fun _ => down) (Returned JsNull)) = 500
  /\ statusOf (POST (fun _ => down) (Thrown "SyntaxError")) = 500
  /\ statusOf (POST (fun _ => down) (Returned (JsObj []))) = 400.
Proof. repeat split; reflexivity. Qed.

Lemma zero_market_cap_dropped_witness :
  marketCap (recordOf (withPriceData down
                         (Returned (Some (sampleData (Some (of_Z 0)) (Some (of_Z 2)))))) "A")
  = None
  /\ recordOf (withPriceData down
                (Returned (Some (sampleData (Some (of_Z 0)) (Some (of_Z 2)))))) "A"
     = recordOf (withPriceData down
                   (Returned (Some (sampleData None (Some (of_Z 2)))))) "A".
Proof.
  pose proof (zero_market_cap_dropped down "A"
                (sampleData (Some (of_Z 0)) (Some (of_Z 2))) false eq_refl) as H.
  destruct H as [H1 [_ [H2 _]]]. split; [exact H1|exact H2].
Defined.

(** The fallback at work: the price index has no 24h change, the quote
    call throws, and the record keeps volume and market cap without a 24h
    change. *)
Example fallback_quote_throws :
  recordOf (healthy (Some (of_Z 5000)) None (Thrown "quote failed")) "A"
  = {| address := "A"; tvlUSD := None; volumeUSD := of_Z 1000;
       marketCap := Some (of_Z 5000); marketCapFormatted := None;
       priceChange24h := None |}
  /\ eventsOf (healthy (Some (of_Z 5000)) None (Thrown "quote failed")) "A"
     = [FetchTokenPrice 101 "A"; ImportYahooFinance; YfQuote "NVDA";
        ConsoleDebug "Failed to fetch yfinance price change for A (NVDA):"].
Proof. split; reflexivity. Qed.

(** The fallback succeeding: the quote's change becomes the record's. *)
Example fallback_quote_answers :
  priceChange24h
    (recordOf (healthy None None
                 (Returned (JsObj [("regularMarketChangePercent", JsNum (of_Z 3))]))) "A")
  = Some (of_Z 3).
Proof. reflexivity. Qed.

End RouteSamples.

(** * Further properties of the token-selection handler *)

Section ResolverCoverage.

Import LiFiWidgetWrapper Resolver Coverage.

Ltac run_selection Hw :=
  unfold run_handler, handleTokenSelect, bind, console_log, console_warn, modify,
    setFieldValue, formRef;
  simpl; rewrite ?Hw; simpl.

(** The form a ready widget holds after a selection. *)
Lemma selection_form (ev : Detail) (w : World) (f : FormState) :
  formRef_current w = Some f ->
  formRef_current (run_handler ev w)
  = Some {| values := applyAll (commandsFor ev) (values f);
            received := (received f ++ commandsFor ev)%list |}.
Proof.
  intros Hw. destruct ev as [t [|]]; unfold commandsFor, applyAll, classify; simpl.
  - run_selection Hw. unfold apply_command; simpl. by rewrite <- !app_assoc.
  - destruct (isPrivateStock t) eqn:Hp; [|destruct (isPublicTokenizedStock t) eqn:Hq].
    + run_selection Hw. rewrite Hp. simpl.
      unfold apply_command; simpl. by rewrite <- !app_assoc.
    + run_selection Hw. rewrite Hp, Hq. simpl.
      unfold apply_command; simpl. by rewrite <- !app_assoc.
    + run_selection Hw. rewrite Hp, Hq. simpl.
      unfold apply_command; simpl. by rewrite <- !app_assoc.
Qed.

Lemma selection_not_ready (ev : Detail) (w : World) :
  formRef_current w = None -> formRef_current (run_handler ev w) = None.
Proof. intros Hw. by run_selection Hw. Qed.

Lemma commandsFor_cases (ev : Detail) :
  map field (commandsFor ev) = ["fromChain"; "fromToken"]
  \/ map field (commandsFor ev) = ["toChain"; "toToken"]
  \/ map field (commandsFor ev) = legFields.
Proof.
  destruct ev as [t [|]]; unfold commandsFor; simpl; [by left|].
  destruct (classify t); simpl; auto.
Qed.

Lemma issued_of_form (w w' : World) (f : FormState) (cs : list Command) (vs : gmap string FieldValue) :
  formRef_current w = Some f ->
  formRef_current w' = Some {| values := vs; received := (received f ++ cs)%list |} ->
  issued w w' = cs.
Proof.
  intros Hw Hw'. unfold issued. rewrite Hw, Hw'. simpl. apply drop_app_length.
Qed.

(** X1. The handler never throws.  While [formRef.current] is null it
    sends nothing: it leaves the ref as it is and adds two console lines,
    the selection and the warning that the form is not ready. *)
Theorem handler_drops_selection_when_not_ready (ev : Detail) (w : World) :
  fst (handleTokenSelect ev w) = Returned tt
  /\ (formRef_current w = None ->
      formRef_current (run_handler ev w) = None
      /\ exists selected,
           console (run_handler ev w)
           = (console w
              ++ [selected;
                  {| level := WarnL; message := "LiFi formRef not ready yet";
                     payload := [] |}])%list).
Proof.
  split.
  - destruct (formRef_current w) as [f|] eqn:Hw.
    + unfold handleTokenSelect, bind, console_log, modify, setFieldValue, formRef.
      simpl. rewrite Hw. simpl.
      destruct ev as [t [|]]; simpl;
        [|destruct (isPrivateStock t); [|destruct (isPublicTokenizedStock t)]];
        simpl; reflexivity.
    + unfold handleTokenSelect, bind, console_log, console_warn, modify, formRef.
      simpl. rewrite Hw. reflexivity.
  - intros Hw. run_selection Hw. split; [reflexivity|].
    eexists. rewrite <- app_assoc. reflexivity.
Qed.

(** X2. A destination selection of an ordinary token sets the destination
    chain and token to the token's own chain id and address and nothing
    else: the source chain and source token stay as they were. *)
Theorem ordinary_destination_keeps_source (t : Token) (w : World) :
  classify t = Ordinary ->
  (forall f, formRef_current w = Some f ->
             issued w (run_handler (selection buy t) w)
             = [cmd "toChain" (NumV (chainId t)); cmd "toToken" (StrV (address t))])
  /\ fieldOf (run_handler (selection buy t) w) "fromChain" = fieldOf w "fromChain"
  /\ fieldOf (run_handler (selection buy t) w) "fromToken" = fieldOf w "fromToken".
Proof.
  intros Hc. unfold classify in Hc.
  destruct (isPrivateStock t) eqn:Hp; [discriminate|].
  destruct (isPublicTokenizedStock t) eqn:Hq; [discriminate|].
  destruct (formRef_current w) as [f|] eqn:Hw.
  - assert (Hform :
      formRef_current (run_handler (selection buy t) w)
      = Some {| values := <["toToken" := StrV (address t)]>
                            (<["toChain" := NumV (chainId t)]> (values f));
                received := (received f ++ [cmd "toChain" (NumV (chainId t));
                                            cmd "toToken" (StrV (address t))])%list |}).
    { run_selection Hw. rewrite Hp, Hq. simpl.
      unfold apply_command; simpl. by rewrite <- !app_assoc. }
    split; [|split].
    + intros f' [= <-]. eapply issued_of_form; [exact Hw|exact Hform].
    + unfold fieldOf. rewrite Hform, Hw. simpl. by simplify_map_eq.
    + unfold fieldOf. rewrite Hform, Hw. simpl. by simplify_map_eq.
  - split; [intros f Hf; rewrite Hf in Hw; discriminate|].
    unfold fieldOf. run_selection Hw. auto.
Qed.

Lemma ordinary_destination_keeps_source_witness :
  issued readyWorld (run_handler (selection buy (mkToken 137 "0xabc")) readyWorld)
  = [cmd "toChain" (NumV 137); cmd "toToken" (StrV "0xabc")]
  /\ fieldOf (run_handler (selection buy (mkToken 137 "0xabc")) readyWorld) "fromToken"
     = Some (StrV ETHEREUM_USDC).
Proof.
  pose proof (ordinary_destination_keeps_source (mkToken 137 "0xabc") readyWorld eq_refl)
    as [H1 [_ H3]].
  split; [exact (H1 initialForm eq_refl)|]. rewrite H3. reflexivity.
Defined.

(** X3. Ethereum USDC itself, written in any letter case, is not treated
    as a tokenized stock: selecting it as destination on a ready widget
    sets only the destination chain and token and leaves the source as it
    was. *)
Theorem usdc_destination_is_not_overridden (t : Token) (w : World) (f : FormState) :
  formRef_current w = Some f ->
  chainId t = ETHEREUM_CHAIN_ID ->
  sameIgnoringCase (address t) ETHEREUM_USDC ->
  issued w (run_handler (selection buy t) w)
  = [cmd "toChain" (NumV ETHEREUM_CHAIN_ID); cmd "toToken" (StrV (address t))]
  /\ fieldOf (run_handler (selection buy t) w) "fromChain" = fieldOf w "fromChain"
  /\ fieldOf (run_handler (selection buy t) w) "fromToken" = fieldOf w "fromToken".
Proof.
  intros Hw Hc Ha.
  assert (Hp : isPrivateStock t = false) by (unfold isPrivateStock; by rewrite Hc).
  assert (Hq : isPublicTokenizedStock t = false).
  { unfold isPublicTokenizedStock, sameIgnoringCase in *.
    rewrite Ha, String.eqb_refl. apply andb_false_r. }
  pose proof (buy_ordinary_form t w f Hw Hp Hq) as Hform. rewrite Hc in Hform.
  split; [eapply issued_app; [exact Hw|exact Hform]|].
  unfold fieldOf. rewrite Hform, Hw. simpl. split; by simplify_map_eq.
Qed.

Lemma usdc_destination_is_not_overridden_witness :
  issued readyWorld
    (run_handler (selection buy (mkToken 1 "0xa0b86991c6218b36c1d19d4a2e9eb0ce3606eb48"))
       readyWorld)
  = [cmd "toChain" (NumV 1);
     cmd "toToken" (StrV "0xa0b86991c6218b36c1d19d4a2e9eb0ce3606eb48")].
Proof.
  apply (usdc_destination_is_not_overridden
           (mkToken 1 "0xa0b86991c6218b36c1d19d4a2e9eb0ce3606eb48") readyWorld initialForm
           eq_refl eq_refl).
  reflexivity.
Defined.

(** X4. Whatever the event and the widget's state, the commands of one
    selection name no field, the two source fields, the two destination
    fields, or all four in the order source chain, source token,
    destination chain, destination token.  Each asks for the URL parameter
    to be set; a chain field carries a number and a token field a string. *)
Theorem issued_commands_shape (ev : Detail) (w : World) :
  (map field (issued w (run_handler ev w)) = []
   \/ map field (issued w (run_handler ev w)) = ["fromChain"; "fromToken"]
   \/ map field (issued w (run_handler ev w)) = ["toChain"; "toToken"]
   \/ map field (issued w (run_handler ev w)) = legFields)
  /\ Forall (fun c => setUrlSearchParam c = true) (issued w (run_handler ev w))
  /\ Forall (fun c => match value c with
                      | NumV _ => field c = "fromChain" \/ field c = "toChain"
                      | StrV _ => field c = "fromToken" \/ field c = "toToken"
                      end)
       (issued w (run_handler ev w)).
Proof.
  destruct (formRef_current w) as [f|] eqn:Hw.
  - rewrite (issued_of_form w _ f (commandsFor ev) _ Hw (selection_form ev w f Hw)).
    split; [right; apply commandsFor_cases|].
    destruct ev as [t [|]]; unfold commandsFor; simpl;
      [|destruct (classify t)];
      (split; repeat (apply List.Forall_cons; [simpl; auto|]); apply List.Forall_nil).
  - unfold issued. rewrite Hw. simpl. repeat split; auto.
Qed.

Lemma applyAll_twice (ev : Detail) (vs : gmap string FieldValue) :
  applyAll (commandsFor ev) (applyAll (commandsFor ev) vs) = applyAll (commandsFor ev) vs.
Proof.
  apply map_eq. intros k.
  destruct ev as [t [|]]; unfold commandsFor, applyAll; simpl;
    [|destruct (classify t); simpl];
    rewrite !lookup_insert; repeat case_decide; congruence.
Qed.

(** X5. Handling the same event a second time changes no field value: the
    form holds after two runs what it held after one. *)
Theorem same_selection_twice (ev : Detail) (w : World) :
  values <$> formRef_current (run_handler ev (run_handler ev w))
  = values <$> formRef_current (run_handler ev w).
Proof.
  destruct (formRef_current w) as [f|] eqn:Hw.
  - rewrite (selection_form ev _ _ (selection_form ev w f Hw)).
    rewrite (selection_form ev w f Hw). simpl.
    by rewrite applyAll_twice.
  - by rewrite !selection_not_ready; [| |apply selection_not_ready].
Qed.

Lemma applyAll_other (cs : list Command) (vs : gmap string FieldValue) (k : string) :
  ~ In k (map field cs) -> applyAll cs vs !! k = vs !! k.
Proof.
  unfold applyAll. revert vs. induction cs as [|c cs IH]; intros vs Hk; [reflexivity|].
  simpl in *. rewrite IH by tauto. apply lookup_insert_ne. tauto.
Qed.

(** X6. No event changes a field other than the four leg fields: the
    amount, for one, stays as it was. *)
Theorem other_fields_untouched (ev : Detail) (w : World) (k : string) :
  ~ In k legFields ->
  fieldOf (run_handler ev w) k = fieldOf w k.
Proof.
  intros Hk. unfold fieldOf. destruct (formRef_current w) as [f|] eqn:Hw.
  - rewrite (selection_form ev w f Hw). simpl. apply applyAll_other.
    destruct (commandsFor_cases ev) as [H|[H|H]]; rewrite H;
      unfold legFields in *; simpl in *; tauto.
  - by rewrite selection_not_ready.
Qed.

Lemma other_fields_untouched_witness :
  fieldOf (run_handler (selection buy (mkToken 101 "X")) readyWorld) "fromAmount"
  = Some (StrV "100").
Proof.
  rewrite (other_fields_untouched (selection buy (mkToken 101 "X")) readyWorld "fromAmount").
  - reflexivity.
  - unfold legFields. simpl. intros [H|[H|[H|[H|[]]]]]; discriminate H.
Defined.

(** X7. A destination selection never sends the search identifier 101 as
    a chain value, whatever the token and the widget's state. *)
Theorem destination_chain_is_never_search_id (t : Token) (w : World) :
  Forall (fun c => chainValue c <> Some SOLANA_CHAIN_ID_TOKENSEARCH)
    (issued w (run_handler (selection buy t) w)).
Proof.
  apply List.Forall_forall. intros c Hc.
  by apply (destination_never_sends_search_id t w c).
Qed.

End ResolverCoverage.

(** * Further properties of the token-data route *)

Section RouteCoverage.

Import JsNumber TokenDataRoute Batch Coverage.

Context {T : Type}.

Ltac run_task :=
  unfold fetchTokenData, stockFallback, yfinanceFallback, try_catch, bind, ret,
    call, local, emit, modify, fetchJupiterLiquidity, fetchJupiterMarketCap;
  simpl.

Ltac split_cases :=
  repeat (case_match; simpl in *; simplify_eq).

(** The three ways [POST] ends. *)
Lemma POST_cases (p : nat -> Providers T) (request_json : Outcome JsVal) :
  (unreadable request_json /\ POST p request_json = internalServerError [])
  \/ (~ unreadable request_json /\ exists msg, POST p request_json = rejected msg)
  \/ (~ unreadable request_json
      /\ exists items,
           POST p request_json
           = {| response :=
                  jsonResponse 200
                    (imap (fun i addr => recordOf (p i) (asString addr)) items) None
                    [("Cache-Control", "no-store, no-cache, must-revalidate")];
                taskEvents := imap (fun i addr => eventsOf (p i) (asString addr)) items;
                routeLog := [] |}).
Proof.
  unfold unreadable.
  destruct request_json as [body|e]; [|left; split; [eauto|reflexivity]].
  destruct (getProp body "addresses") as [v|e] eqn:Hget.
  - assert (Hr : ~ ((exists e, Returned body = Thrown e)
                    \/ Returned body = Returned JsNull
                    \/ Returned body = Returned JsUndefined)).
    { intros [[e He]|[[= ->]|[= ->]]]; discriminate. }
    right.
    destruct v as [| | | | |items|];
      try (left; split; [exact Hr|]; unfold POST; rewrite Hget; by eauto).
    destruct (length items =? 0)%nat eqn:Hlen;
      [left; split; [exact Hr|]; unfold POST; rewrite Hget, Hlen; by eauto|].
    destruct (forallb isNonEmptyString items) eqn:Hall;
      [|left; split; [exact Hr|]; unfold POST; rewrite Hget, Hlen, Hall; by eauto].
    right. split; [exact Hr|]. exists items.
    apply POST_valid; [exact Hget|]. by apply validAddresses_checks.
  - left. destruct body; simpl in Hget; try discriminate; split; auto; reflexivity.
Qed.

(** X8. Every response carries chain id 101 and status 200, 400 or 500.
    It has an error message exactly when the status is not 200, tokens only
    when the status is 200, and the no-store cache header exactly when the
    status is 200. *)
Theorem response_envelope (p : nat -> Providers T) (request_json : Outcome JsVal) :
  chainId (response (POST p request_json)) = 101
  /\ (statusOf (POST p request_json) = 200
      \/ statusOf (POST p request_json) = 400
      \/ statusOf (POST p request_json) = 500)
  /\ (statusOf (POST p request_json) = 200
      <-> error (response (POST p request_json)) = None)
  /\ (statusOf (POST p request_json) <> 200 -> tokensOf (POST p request_json) = [])
  /\ (statusOf (POST p request_json) = 200
      <-> headers (response (POST p request_json))
          = [("Cache-Control", "no-store, no-cache, must-revalidate")]).
Proof.
  unfold statusOf, tokensOf.
  destruct (POST_cases p request_json) as [[_ ->]|[[_ [msg ->]]|[_ [items ->]]]];
    simpl; repeat split; auto; try discriminate; try tauto; try (intros; congruence).
Qed.

(** X9. The route answers 500 exactly when the request cannot be read:
    its JSON does not parse or its body is [null] or [undefined].  No
    failure of a provider leads there. *)
Theorem internal_error_only_when_unreadable (p : nat -> Providers T)
    (request_json : Outcome JsVal) :
  statusOf (POST p request_json) = 500 <-> unreadable request_json.
Proof.
  unfold statusOf.
  destruct (POST_cases p request_json) as [[Hu ->]|[[Hu [msg ->]]|[Hu [items ->]]]];
    simpl; split; intros H; try discriminate; try contradiction; auto.
Qed.

Lemma orZero_not_NaN (x : option number) : isNaN (orZero x) = false.
Proof. destruct x as [[| | |]|]; reflexivity. Qed.

(** What every record of a task looks like. *)
Lemma recordOf_fields (q : Providers T) (a : string) :
  tvlUSD (recordOf q a) = None
  /\ marketCapFormatted (recordOf q a) = None
  /\ isNaN (volumeUSD (recordOf q a)) = false
  /\ (forall x, marketCap (recordOf q a) = Some x -> truthy x = true)
  /\ (forall x, priceChange24h (recordOf q a) = Some x -> isNaN x = false).
Proof.
  unfold recordOf. run_task.
  split_cases; repeat split; try reflexivity; try apply orZero_not_NaN;
    intros y Hy; simplify_eq.
  all: try match goal with
         | H : truthyNum ?o = true, E : ?o = Some _ |- _ =>
             rewrite E in H; simpl in H; exact H
         end.
  all: try match goal with
         | H : negb (missingOrNaN ?o) = true, E : ?o = Some _ |- _ =>
             rewrite E in H; simpl in H; apply negb_true_iff in H; exact H
         end.
  all: match goal with
       | H : negb (isNaN ?y) = true |- isNaN ?y = false =>
           apply negb_true_iff in H; exact H
       end.
Qed.

Lemma records_all (P : TokenData -> Prop) (p : nat -> Providers T) (items : list JsVal) :
  (forall (q : Providers T) a, P (recordOf q a)) ->
  Forall P (imap (fun i addr => recordOf (p i) (asString addr)) items).
Proof.
  intros HP. revert p. induction items as [|x items IH]; intros p; simpl.
  - apply List.Forall_nil.
  - apply List.Forall_cons; [apply HP|]. apply (IH (fun i => p (S i))).
Qed.

Lemma tokens_all (P : TokenData -> Prop) (p : nat -> Providers T)
    (request_json : Outcome JsVal) :
  (forall (q : Providers T) a, P (recordOf q a)) ->
  Forall P (tokensOf (POST p request_json)).
Proof.
  intros HP. unfold tokensOf.
  destruct (POST_cases p request_json) as [[_ ->]|[[_ [msg ->]]|[_ [items ->]]]];
    simpl; try apply List.Forall_nil.
  by apply records_all.
Qed.

(** X10. No record of any response has [tvlUSD] or [marketCapFormatted]:
    both come only from the Jupiter lookups, which return [null]. *)
Theorem jupiter_fields_never_present (p : nat -> Providers T)
    (request_json : Outcome JsVal) :
  Forall (fun r => tvlUSD r = None /\ marketCapFormatted r = None)
    (tokensOf (POST p request_json)).
Proof.
  apply tokens_all. intros q a.
  destruct (recordOf_fields q a) as [H1 [H2 _]]. by split.
Qed.

(** X11. The numbers in a record are usable whatever the providers sent:
    [volumeUSD] is never [NaN], a [marketCap] that is present is neither
    zero nor [NaN], and a [priceChange24h] that is present is not [NaN]. *)
Theorem record_numbers_usable (p : nat -> Providers T) (request_json : Outcome JsVal) :
  Forall (fun r => isNaN (volumeUSD r) = false
                   /\ (forall x, marketCap r = Some x -> truthy x = true)
                   /\ (forall x, priceChange24h r = Some x -> isNaN x = false))
    (tokensOf (POST p request_json)).
Proof.
  apply tokens_all. intros q a.
  destruct (recordOf_fields q a) as [_ [_ H]]. exact H.
Qed.


(** X13. A token's task queries the price index exactly once, before
    anything else, for chain 101 and the address as it was sent.  After
    that it imports the quotes client at most once and asks at most one
    quote, and a quote only after the import. *)
Theorem task_event_order (q : Providers T) (a : string) :
  exists rest,
    eventsOf q a = FetchTokenPrice 101 a :: rest
    /\ List.filter isPriceQuery rest = []
    /\ (List.filter isQuotesCall rest = []
        \/ List.filter isQuotesCall rest = [ImportYahooFinance]
        \/ exists t, List.filter isQuotesCall rest = [ImportYahooFinance; YfQuote t]).
Proof.
  unfold eventsOf. run_task.
  split_cases; eexists; (split; [reflexivity|]); (split; [reflexivity|]); simpl;
    first [left; reflexivity
          |right; left; reflexivity
          |right; right; eexists; reflexivity].
Qed.

Ltac enter_fallback Hf Hm Ha Hmd Hst Htk Ht Hi Hq :=
  apply String.eqb_neq in Ha; apply String.eqb_neq in Ht;
  unfold recordOf, eventsOf; run_task;
  rewrite Hf; simpl; rewrite Hm, Ha; simpl;
  rewrite Hmd; simpl; rewrite Hst; simpl; rewrite Htk; simpl; rewrite Ht; simpl;
  rewrite Hi; simpl; rewrite Hq; simpl.

(** X14. On the fallback path, a quote whose [regularMarketChangePercent]
    is a number other than zero and [NaN] becomes the record's 24h change;
    nothing is logged. *)
Theorem quote_change_used (q : Providers T) (a t : string)
    (props : list (string * JsVal)) (x : number) :
  fallbackAttempted q a ->
  tradableAs q a t ->
  importYahooFinance q = Returned tt ->
  yfQuote q t = Returned (JsObj props) ->
  lookupProp props "regularMarketChangePercent" = JsNum x ->
  truthy x = true ->
  priceChange24h (recordOf q a) = Some x
  /\ eventsOf q a = [FetchTokenPrice 101 a; ImportYahooFinance; YfQuote t].
Proof.
  intros [cg [Hf [Hm Ha]]] [md [Hmd [Hst [Htk Ht]]]] Hi Hq Hx Hxt.
  assert (Hn : isNaN x = false) by (destruct x; try reflexivity; discriminate).
  enter_fallback Hf Hm Ha Hmd Hst Htk Ht Hi Hq.
  rewrite Hx. simpl. rewrite Hxt. simpl. rewrite Hn. simpl. rewrite Hn. simpl.
  split_cases; split; reflexivity.
Qed.

(** X15. A quote whose [regularMarketChangePercent] is zero counts as
    having none: the record's 24h change is then the quote's
    [changePercent] if that is a number other than [NaN], and absent
    otherwise. *)
Theorem zero_quote_change_is_skipped (q : Providers T) (a t : string)
    (props : list (string * JsVal)) (s : bool) :
  fallbackAttempted q a ->
  tradableAs q a t ->
  importYahooFinance q = Returned tt ->
  yfQuote q t = Returned (JsObj props) ->
  lookupProp props "regularMarketChangePercent" = JsNum (S754_zero s) ->
  priceChange24h (recordOf q a) = changePercentOf props None.
Proof.
  intros [cg [Hf [Hm Ha]]] [md [Hmd [Hst [Htk Ht]]]] Hi Hq Hx.
  enter_fallback Hf Hm Ha Hmd Hst Htk Ht Hi Hq.
  rewrite Hx. simpl. unfold changePercentOf.
  destruct (lookupProp props "changePercent") as [| | |y| | |]; simpl;
    try (rewrite Hm; simpl; split_cases; reflexivity).
  destruct (isNaN y) eqn:Hy; simpl; [rewrite Hm|rewrite Hy]; simpl;
    split_cases; reflexivity.
Qed.

End RouteCoverage.

Section RouteCoverageSamples.

Import JsNumber TokenDataRoute Batch Coverage.


Lemma sample_fallbackAttempted (quote : Outcome JsVal) :
  fallbackAttempted (healthy None None quote) "A".
Proof.
  exists (Some (sampleData None None)). split; [reflexivity|].
  split; [reflexivity|discriminate].
Qed.

Lemma sample_tradableAs (quote : Outcome JsVal) :
  tradableAs (healthy None None quote) "A" "NVDA".
Proof.
  exists {| token := "NVDA" |}. repeat split; try reflexivity. discriminate.
Qed.

Lemma quote_change_used_witness :
  priceChange24h
    (recordOf (healthy None None
                 (Returned (JsObj [("regularMarketChangePercent", JsNum (of_Z 3))]))) "A")
  = Some (of_Z 3).
Proof.
  apply (quote_change_used
           (healthy None None
              (Returned (JsObj [("regularMarketChangePercent", JsNum (of_Z 3))])))
           "A" "NVDA" [("regularMarketChangePercent", JsNum (of_Z 3))] (of_Z 3)
           (sample_fallbackAttempted _) (sample_tradableAs _)
           eq_refl eq_refl eq_refl eq_refl).
Defined.

Lemma zero_quote_change_is_skipped_witness :
  priceChange24h
    (recordOf (healthy None None
                 (Returned (JsObj [("regularMarketChangePercent", JsNum (of_Z 0))]))) "A")
  = None.
Proof.
  apply (zero_quote_change_is_skipped
           (healthy None None
              (Returned (JsObj [("regularMarketChangePercent", JsNum (of_Z 0))])))
           "A" "NVDA" [("regularMarketChangePercent", JsNum (of_Z 0))] false
           (sample_fallbackAttempted _) (sample_tradableAs _)
           eq_refl eq_refl eq_refl).
Defined.

End RouteCoverageSamples.

(** * Further properties of [formatMarketCap] *)

Section MarketCapCoverage.

Import JsNumber TokenDataRoute MarketCapFormat Coverage.

Lemma ge_positive_false (v : number) (my : positive) (ey : Z) :
  negativeOrNaN v = true -> ge v (S754_finite false my ey) = false.
Proof.
  destruct v as [[|]|[|]| |[|] m e]; simpl; try discriminate; reflexivity.
Qed.

(** X16. A negative input, negative zero and [NaN] pass no threshold: the
    result is [$] and [toFixed(0)] of the input with no suffix, however
    large the magnitude; for [NaN] it is [$NaN]. *)
Theorem formatMarketCap_negative_or_NaN (v : number) :
  negativeOrNaN v = true ->
  formatMarketCap v = "$" ++ toFixed0 v
  /\ largestApplicable v = None
  /\ formatMarketCap NaN = "$NaN".
Proof.
  intros Hv.
  assert (Hge : forall t sfx, In (t, sfx) thresholds -> ge v (of_Z t) = false).
  { intros t sfx Hin. destruct (threshold_is_positive_finite t sfx Hin) as [my [ey ->]].
    by apply ge_positive_false. }
  assert (H12 := Hge 1000000000000 "T" ltac:(simpl; tauto)).
  assert (H9 := Hge 1000000000 "B" ltac:(simpl; tauto)).
  assert (H6 := Hge 1000000 "M" ltac:(simpl; tauto)).
  assert (H3 := Hge 1000 "K" ltac:(simpl; tauto)).
  split; [|split; [|reflexivity]].
  - unfold formatMarketCap. by rewrite H12, H9, H6, H3.
  - unfold largestApplicable, applicable, thresholds. cbn [List.filter fst].
    by rewrite H12, H9, H6, H3.
Qed.

Lemma formatMarketCap_negative_or_NaN_witness :
  formatMarketCap (SFopp (of_Z 5000000000000)) = "$-5000000000000".
Proof.
  rewrite (proj1 (formatMarketCap_negative_or_NaN (SFopp (of_Z 5000000000000)) eq_refl)).
  vm_compute. reflexivity.
Defined.

Lemma roundsTo_unique (q : number) (n n' : Z) : roundsTo q n -> roundsTo q n' -> n = n'.
Proof.
  intros Hn Hn'. destruct q as [s|s| |s m e];
    try (destruct Hn as [Hn _]; discriminate).
  - apply roundsTo_zero in Hn, Hn'. congruence.
  - apply roundsTo_finite in Hn, Hn'. congruence.
Qed.

(** X17. The number shown can be 1000 under a suffix: a non-negative input
    whose quotient by its threshold rounds to 1000 is printed as [$1000]
    with that threshold's suffix, not with the next one. *)
Theorem formatMarketCap_shows_1000 (v : number) (t : Z) (sfx : string) :
  nonNegative v = true ->
  largestApplicable v = Some (t, sfx) ->
  roundsTo (div v (of_Z t)) 1000 ->
  formatMarketCap v = "$1000" ++ sfx.
Proof.
  intros Hv Hl Hr. rewrite formatMarketCap_by_threshold, Hl.
  destruct (largestApplicable_spec v t sfx Hl) as [Hin _].
  destruct (threshold_is_positive_finite t sfx Hin) as [my [ey Ht]].
  pose proof (div_nonNegative v my ey Hv) as Hs. rewrite <- Ht in Hs.
  assert (Hb : below1e21 (div v (of_Z t))).
  { destruct Hr as [Hfin Hr]. split; [exact Hfin|].
    change (10 ^ 21) with 1000000000000000000000.
    destruct (div v (of_Z t)) as [s0|s0| |s0 m e]; try discriminate.
    - simpl. lia.
    - unfold magnitudeNum, magnitudeDen in *. destruct (0 <=? e) eqn:He; [lia|].
      apply Z.leb_gt in He.
      assert (0 < 2 ^ (- e)) by (apply Z.pow_pos_nonneg; lia). nia. }
  destruct (toFixed0_rounds _ Hs Hb) as [n [Hn Hd]].
  rewrite Hd, (roundsTo_unique _ _ _ Hn Hr). reflexivity.
Qed.

Lemma formatMarketCap_shows_1000_witness :
  formatMarketCap (of_Z 999999) = "$1000K".
Proof.
  apply (formatMarketCap_shows_1000 (of_Z 999999) 1000 "K" eq_refl).
  - reflexivity.
  - split; [reflexivity|]. vm_compute. split; [reflexivity|discriminate].
Defined.

End MarketCapCoverage.

(** * Properties of the compact wrapper *)

Section CompactCoverage.

Import LiFiWidgetWrapper Resolver CompactWidgetWrapper Coverage.

Ltac run_compact :=
  unfold handleTokenSelect, try_catch, bind, ret, console_log, console_error, modify,
    track, setFieldValue, formRef; simpl.

Lemma eqb_nonempty (a : string) : a <> "" -> String.eqb a "" = false.
Proof. intros Ha. by apply String.eqb_neq. Qed.

(** The world after a selection the guard lets through. *)
Lemma compact_selection_world (analytics : Analytics) (t : Token) (ty : SelectType)
    (w : World) (f : FormState) :
  formRef_current w = Some f -> address t <> "" ->
  handleTokenSelect analytics t ty w
  = (Returned tt,
     {| formRef_current :=
          Some (apply_command
                  (cmd (match ty with sell => "fromToken" | buy => "toToken" end)
                     (StrV (address t)))
                  (apply_command
                     (cmd (match ty with sell => "fromChain" | buy => "toChain" end)
                        (NumV (chainId t))) f));
        prevChainIdRef_current := prevChainIdRef_current w;
        widgetLoadedRef_current := widgetLoadedRef_current w;
        console :=
          (console w
           ++ [LogLine "LiFi: Token selected:";
               match analytics (length (tracked w))
                       (TokenSelected ty (symbol t) (address t) (chainId t)) with
               | Returned _ => LogLine "LiFi: Token set successfully:"
               | Thrown _ => ErrorLine "LiFi: Error setting token:"
               end])%list;
        tracked := (tracked w ++ [TokenSelected ty (symbol t) (address t) (chainId t)])%list |}).
Proof.
  intros Hw Ha. run_compact. rewrite Hw, (eqb_nonempty _ Ha). simpl.
  destruct (analytics _ _); simpl; rewrite <- app_assoc; reflexivity.
Qed.

(** X18. The compact handler does nothing but log the selection while
    [formRef.current] is null or when the token has an empty address: no
    field is set, no analytics call is made, and it returns. *)
Theorem compact_guard_drops_selection (analytics : Analytics) (t : Token) (ty : SelectType)
    (w : World) :
  formRef_current w = None \/ address t = "" ->
  handleTokenSelect analytics t ty w
  = (Returned tt,
     {| formRef_current := formRef_current w;
        prevChainIdRef_current := prevChainIdRef_current w;
        widgetLoadedRef_current := widgetLoadedRef_current w;
        console := (console w ++ [LogLine "LiFi: Token selected:"])%list;
        tracked := tracked w |}).
Proof.
  intros [Hw | Ha]; run_compact.
  - rewrite Hw. reflexivity.
  - rewrite Ha. simpl. by rewrite orb_true_r.
Qed.

(** X19. A selection the guard lets through sets exactly one leg, chain
    first, then token, with the token's own chain id and address whatever
    its category; the fields of the other leg keep their values; and one
    analytics call is made.  This holds whether the analytics call returns
    or throws. *)
Theorem compact_selection_sets_one_leg (analytics : Analytics) (t : Token) (ty : SelectType)
    (w : World) (f : FormState) :
  formRef_current w = Some f -> address t <> "" ->
  exists f',
    formRef_current (snd (handleTokenSelect analytics t ty w)) = Some f'
    /\ received f'
       = (received f
          ++ match ty with
             | sell => [cmd "fromChain" (NumV (chainId t)); cmd "fromToken" (StrV (address t))]
             | buy => [cmd "toChain" (NumV (chainId t)); cmd "toToken" (StrV (address t))]
             end)%list
    /\ values f'
       = match ty with
         | sell => <["fromToken" := StrV (address t)]>
                     (<["fromChain" := NumV (chainId t)]> (values f))
         | buy => <["toToken" := StrV (address t)]>
                    (<["toChain" := NumV (chainId t)]> (values f))
         end
    /\ match ty with
       | sell => values f' !! "toChain" = values f !! "toChain"
                 /\ values f' !! "toToken" = values f !! "toToken"
       | buy => values f' !! "fromChain" = values f !! "fromChain"
                /\ values f' !! "fromToken" = values f !! "fromToken"
       end
    /\ tracked (snd (handleTokenSelect analytics t ty w))
       = (tracked w ++ [TokenSelected ty (symbol t) (address t) (chainId t)])%list.
Proof.
  intros Hw Ha. rewrite (compact_selection_world analytics t ty w f Hw Ha). simpl.
  eexists. split; [reflexivity|].
  unfold apply_command; simpl.
  destruct ty; simpl; rewrite <- app_assoc; simpl;
    (split; [reflexivity|]); (split; [reflexivity|]);
    (split; [split; by simplify_map_eq|reflexivity]).
Qed.

(** X20. The compact handler never throws, whatever the widget's state,
    the token and the behaviour of the analytics module. *)
Theorem compact_handler_never_throws (analytics : Analytics) (t : Token) (ty : SelectType)
    (w : World) :
  fst (handleTokenSelect analytics t ty w) = Returned tt.
Proof.
  destruct (formRef_current w) as [f|] eqn:Hw.
  - destruct (string_dec (address t) "") as [Ha|Ha].
    + run_compact. rewrite Hw, Ha. reflexivity.
    + by rewrite (compact_selection_world analytics t ty w f Hw Ha).
  - run_compact. rewrite Hw. reflexivity.
Qed.

(** X21. Of the two closing console lines the handler writes exactly one:
    the error line if and only if the analytics call throws, the success
    line if and only if it returns.  In both cases the two field values
    stay set: a failure of analytics undoes nothing. *)
Theorem compact_error_logged_iff_analytics_throws (analytics : Analytics) (t : Token)
    (ty : SelectType) (w : World) (f : FormState) :
  formRef_current w = Some f -> address t <> "" ->
  (In (ErrorLine "LiFi: Error setting token:")
      (drop (length (console w)) (console (snd (handleTokenSelect analytics t ty w))))
   <-> exists e, analytics (length (tracked w))
                   (TokenSelected ty (symbol t) (address t) (chainId t)) = Thrown e)
  /\ (In (LogLine "LiFi: Token set successfully:")
         (drop (length (console w)) (console (snd (handleTokenSelect analytics t ty w))))
      <-> exists u, analytics (length (tracked w))
                      (TokenSelected ty (symbol t) (address t) (chainId t)) = Returned u)
  /\ formRef_current (snd (handleTokenSelect analytics t ty w))
     = formRef_current (snd (handleTokenSelect quiet t ty w)).
Proof.
  intros Hw Ha.
  rewrite (compact_selection_world analytics t ty w f Hw Ha),
    (compact_selection_world quiet t ty w f Hw Ha).
  cbn [snd console formRef_current]. rewrite drop_app_length.
  destruct (analytics _ _) as [u|e]; simpl.
  - split; [|split; [|reflexivity]]; split.
    + intros [H|[H|[]]]; discriminate.
    + intros [e He]. discriminate.
    + eauto.
    + auto.
  - split; [|split; [|reflexivity]]; split.
    + eauto.
    + auto.
    + intros [H|[H|[]]]; discriminate.
    + intros [u Hu]. discriminate.
Qed.


(** X23. The responsive width.  Without a window, or before the first
    measurement, it is the desktop width.  With a window of [w] pixels it
    is a whole number of pixels that is positive and less than [w] once
    [w] is at least 33; for a window of 32 pixels or less it is zero or
    negative. *)
Theorem widgetWidth_fits_window (w : Z) (measured : option Z) :
  widgetWidth false measured = "392px"
  /\ widgetWidth true None = "392px"
  /\ exists n, widgetWidth true (Some w) = pixels n
               /\ (33 <= w -> 0 < n < w)
               /\ (w <= 32 -> n <= 0).
Proof.
  split; [by destruct measured|]. split; [reflexivity|].
  unfold widgetWidth. simpl. destruct (w <? 768) eqn:Hw.
  - apply Z.ltb_lt in Hw. exists (w - 32). split; [reflexivity|]. lia.
  - apply Z.ltb_ge in Hw. exists 392. split; [reflexivity|]. lia.
Qed.

Lemma trackWidgetLoad_loaded (analytics : Analytics) (m : bool) (c : Z) (w : World) :
  m && negb (widgetLoadedRef_current w) = false ->
  trackWidgetLoad analytics m c w = (Returned tt, w).
Proof. intros H. unfold trackWidgetLoad. by rewrite H. Qed.

Lemma trackWidgetLoad_fresh (analytics : Analytics) (c : Z) (w : World) :
  widgetLoadedRef_current w = false ->
  trackWidgetLoad analytics true c w
  = match analytics (length (tracked w)) (SwapWidgetLoaded c) with
    | Returned _ =>
        (Returned tt,
         {| formRef_current := formRef_current w;
            prevChainIdRef_current := prevChainIdRef_current w;
            widgetLoadedRef_current := true;
            console := console w;
            tracked := (tracked w ++ [SwapWidgetLoaded c])%list |})
    | Thrown e =>
        (Thrown e,
         {| formRef_current := formRef_current w;
            prevChainIdRef_current := prevChainIdRef_current w;
            widgetLoadedRef_current := false;
            console := console w;
            tracked := (tracked w ++ [SwapWidgetLoaded c])%list |})
    end.
Proof.
  intros Hl. unfold trackWidgetLoad, bind, track, modify. rewrite Hl. simpl.
  by destruct (analytics _ _).
Qed.

(** X24. Over any sequence of runs of the load-tracking effect, ended by
    the first throw if there is one, the widget load is reported at most
    once, and only by a run that saw the component mounted; once the flag
    is set nothing is reported. *)
Theorem widget_load_tracked_at_most_once (analytics : Analytics) (runs : list (bool * Z))
    (w : World) :
  exists l,
    tracked (snd (runAll (map (fun r => trackWidgetLoad analytics (fst r) (snd r)) runs) w))
    = (tracked w ++ l)%list
    /\ (length l <= 1)%nat
    /\ (widgetLoadedRef_current w = true -> l = [])
    /\ Forall (fun e => exists c, e = SwapWidgetLoaded c /\ In (true, c) runs) l.
Proof.
  revert w. induction runs as [|[m c] runs IH]; intros w.
  - exists []. simpl. rewrite app_nil_r. repeat split; auto.
  - cbn [map runAll fst snd]. unfold bind at 1.
    destruct (m && negb (widgetLoadedRef_current w)) eqn:Hg.
    + apply andb_true_iff in Hg as [-> Hl]. apply negb_true_iff in Hl.
      rewrite (trackWidgetLoad_fresh analytics c w Hl).
      assert (Hone : Forall (fun e => exists c0, e = SwapWidgetLoaded c0
                                                 /\ In (true, c0) ((true, c) :: runs))
                       [SwapWidgetLoaded c]).
      { apply List.Forall_cons; [|apply List.Forall_nil].
        exists c. split; [reflexivity|]. by left. }
      destruct (analytics (length (tracked w)) (SwapWidgetLoaded c)) as [u|e].
      * match goal with
        | |- context [runAll ?steps ?w1] => destruct (IH w1) as [l [Ht [_ [Hn _]]]]
        end.
        rewrite Ht. cbn [tracked widgetLoadedRef_current] in *.
        rewrite (Hn eq_refl), app_nil_r.
        exists [SwapWidgetLoaded c]. split; [reflexivity|]. split; [simpl; lia|].
        split; [rewrite Hl; discriminate|exact Hone].
      * cbn [snd tracked].
        exists [SwapWidgetLoaded c]. split; [reflexivity|]. split; [simpl; lia|].
        split; [rewrite Hl; discriminate|exact Hone].
    + rewrite (trackWidgetLoad_loaded analytics m c w Hg).
      destruct (IH w) as [l [Ht [Hlen [Hn Hf]]]].
      exists l. split; [exact Ht|]. split; [exact Hlen|]. split; [exact Hn|].
      eapply List.Forall_impl; [|exact Hf].
      intros e [c' [-> Hin]]. exists c'. split; [reflexivity|]. by right.
Qed.

Lemma trackChainChange_quiet (c : Z) (w : World) :
  trackChainChange quiet c w
  = (Returned tt,
     {| formRef_current := formRef_current w;
        prevChainIdRef_current := Some c;
        widgetLoadedRef_current := widgetLoadedRef_current w;
        console := console w;
        tracked :=
          (tracked w ++ changes (prevChainIdRef_current w) [c])%list |}).
Proof.
  unfold trackChainChange, bind, modify, track, quiet. simpl.
  destruct (prevChainIdRef_current w) as [p|]; simpl.
  - destruct (p =? c); simpl; [by rewrite app_nil_r|reflexivity].
  - by rewrite app_nil_r.
Qed.

Lemma changes_cons (p : option Z) (c : Z) (rest : list Z) :
  changes p (c :: rest) = (changes p [c] ++ changes (Some c) rest)%list.
Proof. simpl. destruct p as [p|]; [destruct (p =? c)|]; reflexivity. Qed.

Lemma last_default_unused {A} (l : list A) (a d d' : A) :
  List.last (a :: l) d = List.last (a :: l) d'.
Proof.
  revert a. induction l as [|b l IH]; intros a; [reflexivity|].
  change (List.last (a :: b :: l) d) with (List.last (b :: l) d).
  change (List.last (a :: b :: l) d') with (List.last (b :: l) d').
  apply IH.
Qed.

(** X25. With analytics that does not throw, a sequence of runs of the
    chain-tracking effect reports exactly the chain changes: one call for
    each chain id that differs from the one seen before it, in order, and
    none for the first chain id a fresh component sees.  The ref ends up
    holding the last chain id. *)
Theorem chain_changes_tracked (chains : list Z) (w : World) :
  fst (runAll (map (trackChainChange quiet) chains) w) = Returned tt
  /\ tracked (snd (runAll (map (trackChainChange quiet) chains) w))
     = (tracked w ++ changes (prevChainIdRef_current w) chains)%list
  /\ prevChainIdRef_current (snd (runAll (map (trackChainChange quiet) chains) w))
     = List.last (map Some chains) (prevChainIdRef_current w)
  /\ (prevChainIdRef_current w = None ->
      forall c, tracked (snd (trackChainChange quiet c w)) = tracked w).
Proof.
  split; [|split; [|split]].
  - revert w. induction chains as [|c chains IH]; intros w; [reflexivity|].
    simpl. unfold bind at 1. rewrite trackChainChange_quiet. apply IH.
  - revert w. induction chains as [|c chains IH]; intros w.
    + simpl. by rewrite app_nil_r.
    + cbn [map runAll]. unfold bind at 1. rewrite trackChainChange_quiet.
      rewrite IH. cbn [tracked prevChainIdRef_current].
      by rewrite (changes_cons _ c chains), app_assoc.
  - revert w. induction chains as [|c chains IH]; intros w; [reflexivity|].
    cbn [map runAll]. unfold bind at 1. rewrite trackChainChange_quiet.
    rewrite IH. cbn [prevChainIdRef_current].
    destruct chains as [|z chains]; [reflexivity|].
    cbn [map]. exact (last_default_unused _ _ _ _).
  - intros Hp c. rewrite trackChainChange_quiet. cbn [snd tracked].
    rewrite Hp. simpl. by rewrite app_nil_r.
Qed.

Lemma trackChainChange_step (analytics : Analytics) (c : Z) (w : World) :
  trackChainChange analytics c w
  = match changes (prevChainIdRef_current w) [c] with
    | e :: _ =>
        match analytics (length (tracked w)) e with
        | Returned _ =>
            (Returned tt,
             {| formRef_current := formRef_current w;
                prevChainIdRef_current := Some c;
                widgetLoadedRef_current := widgetLoadedRef_current w;
                console := console w;
                tracked := (tracked w ++ [e])%list |})
        | Thrown err =>
            (Thrown err,
             {| formRef_current := formRef_current w;
                prevChainIdRef_current := prevChainIdRef_current w;
                widgetLoadedRef_current := widgetLoadedRef_current w;
                console := console w;
                tracked := (tracked w ++ [e])%list |})
        end
    | [] =>
        (Returned tt,
         {| formRef_current := formRef_current w;
            prevChainIdRef_current := Some c;
            widgetLoadedRef_current := widgetLoadedRef_current w;
            console := console w;
            tracked := tracked w |})
    end.
Proof.
  unfold trackChainChange, bind, modify, track. simpl.
  destruct (prevChainIdRef_current w) as [p|]; simpl; [|reflexivity].
  destruct (p =? c); simpl; [reflexivity|].
  by destruct (analytics _ _).
Qed.

Lemma changes_single (p : option Z) (c : Z) :
  Forall (fun e => exists a b, e = ChainChanged a b /\ a <> b) (changes p [c]).
Proof.
  simpl. destruct p as [p|]; [|apply List.Forall_nil].
  destruct (p =? c) eqn:Hpc; [apply List.Forall_nil|].
  apply List.Forall_cons; [|apply List.Forall_nil].
  exists p, c. split; [reflexivity|]. by apply Z.eqb_neq.
Qed.

Lemma changes_single_length (p : option Z) (c : Z) :
  changes p [c] = [] \/ exists e, changes p [c] = [e].
Proof.
  simpl. destruct p as [p|]; [|by left].
  destruct (p =? c); [by left|right; eauto].
Qed.

(** X26. Whatever the analytics module does, every chain change the
    effect reports has two different chain ids, and the calls made are an
    initial part of the chain changes of the sequence: a throw only cuts
    the sequence short. *)
Theorem chain_change_endpoints_differ (analytics : Analytics) (chains : list Z) (w : World) :
  exists l,
    tracked (snd (runAll (map (trackChainChange analytics) chains) w))
    = (tracked w ++ l)%list
    /\ l `prefix_of` changes (prevChainIdRef_current w) chains
    /\ Forall (fun e => exists a b, e = ChainChanged a b /\ a <> b) l.
Proof.
  revert w. induction chains as [|c chains IH]; intros w.
  - exists []. simpl. rewrite app_nil_r. repeat split; auto.
  - cbn [map runAll]. unfold bind at 1. rewrite trackChainChange_step.
    rewrite (changes_cons _ c chains).
    pose proof (changes_single (prevChainIdRef_current w) c) as Hs.
    destruct (changes_single_length (prevChainIdRef_current w) c) as [He | [e He]];
      rewrite He in *.
    + match goal with
      | |- context [runAll ?steps ?w1] => destruct (IH w1) as [l [Ht [Hpre Hf]]]
      end.
      cbn [tracked prevChainIdRef_current] in *.
      exists l. split; [exact Ht|]. split; [exact Hpre|exact Hf].
    + destruct (analytics (length (tracked w)) e) as [u|err].
      * match goal with
        | |- context [runAll ?steps ?w1] => destruct (IH w1) as [l [Ht [Hpre Hf]]]
        end.
        cbn [tracked prevChainIdRef_current] in *.
        exists (e :: l). split; [|split].
        -- rewrite Ht, <- app_assoc. reflexivity.
        -- simpl. by apply prefix_cons.
        -- apply List.Forall_cons; [|exact Hf]. by inversion Hs.
      * cbn [snd tracked]. exists [e]. split; [reflexivity|]. split; [|exact Hs].
        simpl. apply prefix_cons, prefix_nil.
Qed.

End CompactCoverage.

Section CompactCoverageSamples.

Import LiFiWidgetWrapper Resolver CompactWidgetWrapper Coverage.

Lemma compact_guard_drops_selection_witness :
  snd (handleTokenSelect quiet (mkToken 1 "") buy (mounted initialForm))
  = {| formRef_current := Some initialForm;
       prevChainIdRef_current := None;
       widgetLoadedRef_current := false;
       console := [LogLine "LiFi: Token selected:"];
       tracked := [] |}.
Proof.
  rewrite (compact_guard_drops_selection quiet (mkToken 1 "") buy (mounted initialForm)
             (or_intror eq_refl)).
  reflexivity.
Defined.

Lemma compact_selection_sets_one_leg_witness :
  exists f',
    formRef_current (snd (handleTokenSelect broken (mkToken 101 "So1") buy (mounted initialForm)))
    = Some f'
    /\ values f' !! "toChain" = Some (NumV 101)
    /\ values f' !! "fromToken" = Some (StrV ETHEREUM_USDC).
Proof.
  destruct (compact_selection_sets_one_leg broken (mkToken 101 "So1") buy
              (mounted initialForm) initialForm eq_refl ltac:(discriminate))
    as [f' [H1 [_ [H3 [[_ H4] _]]]]].
  exists f'. split; [exact H1|]. split.
  - rewrite H3. reflexivity.
  - rewrite H4. reflexivity.
Defined.

Lemma compact_error_logged_iff_analytics_throws_witness :
  In (ErrorLine "LiFi: Error setting token:")
     (console (snd (handleTokenSelect broken (mkToken 1 "0xabc") sell (mounted initialForm)))).
Proof.
  destruct (compact_error_logged_iff_analytics_throws broken (mkToken 1 "0xabc") sell
              (mounted initialForm) initialForm eq_refl ltac:(discriminate))
    as [[_ H] _].
  apply H. by eexists.
Defined.


End CompactCoverageSamples.
